(** * Field data collector: service layer (app/services.py, app/models.py)

    A shallow embedding of the service layer: the password hasher, the
    auth service, the photo store and the collection store, over an
    explicit world made of the relational store and the upload directory.

    Conventions of the embedding.
    - A Python [str] is a [string] holding its UTF-8 encoding, so that
      [str.encode()] is the list of its bytes.  The separator ['$'], the
      path separator ['/'] and the dot are ASCII and never occur inside a
      multi-byte sequence, hence splitting on them is the same on bytes and
      on code points.
    - A Python [int] is a [Z]; a length is a [nat].
    - Every value the code draws from its environment is an explicit
      argument: the bytes read from the system's random source, and the
      instants returned by [datetime.utcnow()].
    - Calls to [logger] are diagnostics and are left out. *)

From Stdlib Require Import ZArith List String Ascii Lia Bool Sorting.Sorted Permutation.
From stdpp Require Import gmap strings list.
Import ListNotations.

Local Open Scope string_scope.
Local Open Scope Z_scope.

(** ** Exceptions and the error monad *)

Inductive exn : Type :=
| ValueError (msg : string)
| OverflowError (msg : string)
| OSError (msg : string)
| DatabaseError (msg : string).

(** [str(e)] *)
Definition exn_str (e : exn) : string :=
  match e with
  | ValueError m | OverflowError m | OSError m | DatabaseError m => m
  end.

Inductive Res (A : Type) : Type :=
| Ok (a : A)
| Raise (e : exn).
Arguments Ok {A} a.
Arguments Raise {A} e.

Definition res_bind {A B} (r : Res A) (k : A -> Res B) : Res B :=
  match r with
  | Ok a => k a
  | Raise e => Raise e
  end.

(** [try: body  except ValueError: handler] *)
Definition try_except_ValueError {A} (body : Res A) (handler : string -> Res A) : Res A :=
  match body with
  | Raise (ValueError m) => handler m
  | r => r
  end.

(** ** Strings *)

Module Str.

Definition bytes_of (s : string) : list Z :=
  List.map (fun c => Z.of_N (N_of_ascii c)) (list_ascii_of_string s).

Fixpoint contains (sep : ascii) (s : string) : bool :=
  match s with
  | EmptyString => false
  | String c r => if Ascii.eqb c sep then true else contains sep r
  end.

(** [s.split(sep)] for a one-character separator: the pieces between the
    occurrences of [sep], empty pieces included. *)
Fixpoint split (sep : ascii) (s : string) : list string :=
  match s with
  | EmptyString => [EmptyString]
  | String c r =>
      if Ascii.eqb c sep then EmptyString :: split sep r
      else match split sep r with
           | h :: t => String c h :: t
           | [] => [String c EmptyString]
           end
  end.

(** [s.rfind(c)]: index of the last occurrence, [-1] when there is none. *)
Fixpoint rfind (c : ascii) (s : string) : Z :=
  match s with
  | EmptyString => -1
  | String d r =>
      let i := rfind c r in
      if 0 <=? i then i + 1
      else if Ascii.eqb d c then 0 else -1
  end.

(** [s[i:]] for [0 <= i]. *)
Definition drop (i : Z) (s : string) : string :=
  String.substring (Z.to_nat i) (String.length s - Z.to_nat i) s.

Definition lower_char (c : ascii) : ascii :=
  let n := N_of_ascii c in
  if ((65 <=? n) && (n <=? 90))%N then ascii_of_N (n + 32) else c.

(** [s.lower()] on ASCII letters.  No character outside ASCII lower-cases
    to one of the letters of the allowed extensions, so membership of a
    lower-cased suffix in the allow-list is decided the same way. *)
Fixpoint lower (s : string) : string :=
  match s with
  | EmptyString => EmptyString
  | String c r => String (lower_char c) (lower r)
  end.

Definition hex_chars : list ascii :=
  list_ascii_of_string "0123456789abcdef".

Definition hex_digit (n : Z) : ascii :=
  nth (Z.to_nat n) hex_chars "0"%char.

(** Decimal rendering of [n] on exactly [width] digits ([%0<width>d] for a
    number that fits). *)
Fixpoint zero_padded (width : nat) (n : Z) : string :=
  match width with
  | O => EmptyString
  | S w => zero_padded w (n / 10) ++ String (hex_digit (n mod 10)) EmptyString
  end.

End Str.

(** ** SHA-256 (hashlib.sha256), after FIPS 180-4 *)

Module SHA256.

Definition mask32 : Z := 0xffffffff.
Definition trunc32 (x : Z) : Z := Z.land x mask32.
Definition plus32 (x y : Z) : Z := trunc32 (x + y).
Definition rotr (n x : Z) : Z :=
  trunc32 (Z.lor (Z.shiftr x n) (Z.shiftl x (32 - n))).
Definition not32 (x : Z) : Z := Z.lxor x mask32.

Definition choose (x y z : Z) : Z := Z.lxor (Z.land x y) (Z.land (not32 x) z).
Definition majority (x y z : Z) : Z :=
  Z.lxor (Z.lxor (Z.land x y) (Z.land x z)) (Z.land y z).
Definition big_sigma0 (x : Z) : Z := Z.lxor (Z.lxor (rotr 2 x) (rotr 13 x)) (rotr 22 x).
Definition big_sigma1 (x : Z) : Z := Z.lxor (Z.lxor (rotr 6 x) (rotr 11 x)) (rotr 25 x).
Definition small_sigma0 (x : Z) : Z := Z.lxor (Z.lxor (rotr 7 x) (rotr 18 x)) (Z.shiftr x 3).
Definition small_sigma1 (x : Z) : Z := Z.lxor (Z.lxor (rotr 17 x) (rotr 19 x)) (Z.shiftr x 10).

(** Trial division: no [d] with [2 <= d < p] divides [p]. *)
Definition is_prime (p : Z) : bool :=
  List.forallb (fun d => negb (p mod Z.of_nat d =? 0) || (p <=? Z.of_nat d))
               (List.seq 2 (Z.to_nat p)).

(** The primes among [2 .. n + 1]. *)
Definition primes_below (n : nat) : list Z :=
  List.filter is_prime (List.map Z.of_nat (List.seq 2 n)).

(** Integer cube root by bisection: the largest [r] in [lo, hi) with
    [r * r * r <= n]. *)
Fixpoint cube_root (fuel : nat) (lo hi n : Z) : Z :=
  match fuel with
  | O => lo
  | S k =>
      if hi - lo <=? 1 then lo
      else
        let mid := (lo + hi) / 2 in
        if mid * mid * mid <=? n then cube_root k mid hi n
        else cube_root k lo mid n
  end.

(** The round constants: the first 32 bits of the fractional parts of the
    cube roots of the first 64 primes (FIPS 180-4, section 4.2.2). *)
Definition round_constants : list Z := Eval vm_compute in
    List.map (fun p => trunc32 (cube_root 40 0 (2 ^ 35) (p * 2 ^ 96)))
             (primes_below 310).

(** The eight working words. *)
Record state : Type := State {
  ha : Z; hb : Z; hc : Z; hd : Z; he : Z; hf : Z; hg : Z; hh : Z
}.

(** The initial hash value: the first 32 bits of the fractional parts of
    the square roots of the first 8 primes (section 5.3.3). *)
Definition initial_words : list Z := Eval vm_compute in
    List.map (fun p => trunc32 (Z.sqrt (p * 2 ^ 64))) (primes_below 18).

Definition initial_state : state :=
  let w i := nth i initial_words 0 in
  State (w 0%nat) (w 1%nat) (w 2%nat) (w 3%nat)
        (w 4%nat) (w 5%nat) (w 6%nat) (w 7%nat).

(** Big-endian bytes of the low [n] bytes of [x]. *)
Fixpoint be_bytes (n : nat) (x : Z) : list Z :=
  match n with
  | O => []
  | S m => Z.land (Z.shiftr x (8 * Z.of_nat m)) 0xff :: be_bytes m x
  end.

(** Padding: a [1] bit, zeros up to 56 modulo 64, the bit length on 8 bytes. *)
Definition pad (msg : list Z) : list Z :=
  let len := Z.of_nat (List.length msg) in
  let zeros := Z.to_nat ((55 - len) mod 64) in
  msg ++ 0x80 :: List.repeat 0 zeros ++ be_bytes 8 (8 * len).

Fixpoint words_of (fuel : nat) (bs : list Z) : list Z :=
  match fuel, bs with
  | S k, b0 :: b1 :: b2 :: b3 :: r =>
      (Z.shiftl b0 24 + Z.shiftl b1 16 + Z.shiftl b2 8 + b3) :: words_of k r
  | _, _ => []
  end.

(** The message schedule: the block's 16 words extended to 64. *)
Fixpoint schedule (n : nat) (w : list Z) : list Z :=
  match n with
  | O => w
  | S k =>
      let t := List.length w in
      let at_back i := nth (t - i) w 0 in
      schedule k
        (w ++ [plus32 (plus32 (small_sigma1 (at_back 2%nat)) (at_back 7%nat))
                      (plus32 (small_sigma0 (at_back 15%nat)) (at_back 16%nat))])
  end.

Definition round (s : state) (kw : Z * Z) : state :=
  let '(k, w) := kw in
  let t1 := plus32 (plus32 (plus32 (hh s) (big_sigma1 (he s)))
                           (plus32 (choose (he s) (hf s) (hg s)) k)) w in
  let t2 := plus32 (big_sigma0 (ha s)) (majority (ha s) (hb s) (hc s)) in
  State (plus32 t1 t2) (ha s) (hb s) (hc s) (plus32 (hd s) t1) (he s) (hf s) (hg s).

Definition compress (s : state) (block : list Z) : state :=
  let w := schedule 48 (words_of 16 block) in
  let r := List.fold_left round (List.combine round_constants w) s in
  State (plus32 (ha s) (ha r)) (plus32 (hb s) (hb r)) (plus32 (hc s) (hc r))
        (plus32 (hd s) (hd r)) (plus32 (he s) (he r)) (plus32 (hf s) (hf r))
        (plus32 (hg s) (hg r)) (plus32 (hh s) (hh r)).

Fixpoint blocks (fuel : nat) (s : state) (bs : list Z) : state :=
  match fuel, bs with
  | S k, _ :: _ => blocks k (compress s (List.firstn 64 bs)) (List.skipn 64 bs)
  | _, _ => s
  end.

Definition digest (msg : list Z) : state :=
  let p := pad msg in
  blocks (List.length p) initial_state p.

Definition hex8 (w : Z) : string :=
  let d k := Str.hex_digit (Z.land (Z.shiftr w (4 * k)) 15) in
  String (d 7) (String (d 6) (String (d 5) (String (d 4)
    (String (d 3) (String (d 2) (String (d 1) (String (d 0) EmptyString))))))).

(** [hashlib.sha256(data).hexdigest()] *)
Definition hexdigest (msg : list Z) : string :=
  let s := digest msg in
  hex8 (ha s) ++ hex8 (hb s) ++ hex8 (hc s) ++ hex8 (hd s) ++
  hex8 (he s) ++ hex8 (hf s) ++ hex8 (hg s) ++ hex8 (hh s).

End SHA256.

(** ** Randomness: secrets.token_hex *)

(** [secrets.token_hex(n)] is the hexadecimal rendering of the [n] bytes
    read from the system's random source; [rnd] stands for those bytes. *)
Fixpoint token_hex (rnd : list Byte.byte) : string :=
  match rnd with
  | [] => EmptyString
  | b :: r =>
      let n := Z.of_N (Byte.to_N b) in
      String (Str.hex_digit (n / 16)) (String (Str.hex_digit (n mod 16)) (token_hex r))
  end.

(** ** Password hasher (AuthService.hash_password, verify_password) *)

Definition dollar : ascii := "$"%char.

(** [rnd] is the result of the 16-byte read behind [secrets.token_hex(16)]. *)
Definition hash_password (rnd : list Byte.byte) (password : string) : string :=
  let salt := token_hex rnd in
  let password_hash := SHA256.hexdigest (Str.bytes_of (password ++ salt)) in
  salt ++ String dollar password_hash.

(** [a, b = parts]: unpacking a sequence that has not exactly two items
    raises [ValueError]. *)
Definition unpack2 (parts : list string) : Res (string * string) :=
  match parts with
  | [a; b] => Ok (a, b)
  | [] | [_] => Raise (ValueError "not enough values to unpack (expected 2)")
  | _ => Raise (ValueError "too many values to unpack (expected 2)")
  end.

Definition verify_password (password password_hash : string) : Res bool :=
  try_except_ValueError
    (res_bind (unpack2 (Str.split dollar password_hash)) (fun '(salt, hash_value) =>
     Ok (String.eqb (SHA256.hexdigest (Str.bytes_of (password ++ salt))) hash_value)))
    (fun _ => Ok false).

(** ** Paths (pathlib.PurePosixPath) *)

Module Path.

Definition slash : ascii := "/"%char.
Definition dot : ascii := "."%char.

(** The parts of a relative or absolute path: the pieces between slashes,
    with empty pieces and ["."] dropped. *)
Definition components (p : string) : list string :=
  List.filter (fun x => negb (String.eqb x "" || String.eqb x "."))
              (Str.split slash p).

(** [Path(p).name]: the last part, [""] when there is none. *)
Definition name (p : string) : string := List.last (components p) "".

(** [Path(p).suffix]: from the last dot of the name, provided the dot is
    neither its first nor its last character. *)
Definition suffix (p : string) : string :=
  let n := name p in
  let i := Str.rfind dot n in
  if (0 <? i) && (i <? Z.of_nat (String.length n) - 1) then Str.drop i n else "".

(** [str(Path(dir) / file)] for a one-part [file]. *)
Definition join (dir file : string) : string := dir ++ String slash file.

End Path.

(** ** Instants (datetime.datetime, naive) *)

Record datetime : Type := Datetime {
  year : Z; month : Z; day : Z;
  hour : Z; minute : Z; second : Z; microsecond : Z
}.

Module Calendar.

Definition MAXORDINAL : Z := 3652059.

Definition is_leap (y : Z) : bool :=
  (y mod 4 =? 0) && (negb (y mod 100 =? 0) || (y mod 400 =? 0)).

Definition days_before_year (y : Z) : Z :=
  let p := y - 1 in p * 365 + p / 4 - p / 100 + p / 400.

(** [_DAYS_IN_MONTH], index 0 unused. *)
Definition DAYS_IN_MONTH : list Z :=
  [-1; 31; 28; 31; 30; 31; 30; 31; 31; 30; 31; 30; 31].

(** [_DAYS_BEFORE_MONTH], index 0 unused. *)
Definition DAYS_BEFORE_MONTH : list Z :=
  [-1; 0; 31; 59; 90; 120; 151; 181; 212; 243; 273; 304; 334].

Definition days_in_month (y m : Z) : Z :=
  if (m =? 2) && is_leap y then 29 else nth (Z.to_nat m) DAYS_IN_MONTH 0.

Definition days_before_month (y m : Z) : Z :=
  nth (Z.to_nat m) DAYS_BEFORE_MONTH 0 + (if (2 <? m) && is_leap y then 1 else 0).

Definition ymd2ord (y m d : Z) : Z :=
  days_before_year y + days_before_month y m + d.

(** Inverse of [ymd2ord] on [1 .. MAXORDINAL]. *)
Definition ord2ymd (ordinal : Z) : Z * Z * Z :=
  let n := ordinal - 1 in
  let n400 := n / 146097 in let n := n mod 146097 in
  let y := n400 * 400 + 1 in
  let n100 := n / 36524 in let n := n mod 36524 in
  let n4 := n / 1461 in let n := n mod 1461 in
  let n1 := n / 365 in let n := n mod 365 in
  let y := y + n100 * 100 + n4 * 4 + n1 in
  if (n1 =? 4) || (n100 =? 4) then (y - 1, 12, 31)
  else
    let leapyear := (n1 =? 3) && (negb (n4 =? 24) || (n100 =? 3)) in
    let m := Z.shiftr (n + 50) 5 in
    let preceding :=
      nth (Z.to_nat m) DAYS_BEFORE_MONTH 0 + (if (2 <? m) && leapyear then 1 else 0) in
    if n <? preceding then
      let m := m - 1 in
      let preceding :=
        preceding - (nth (Z.to_nat m) DAYS_IN_MONTH 0
                     + (if (m =? 2) && leapyear then 1 else 0)) in
      (y, m, n - preceding + 1)
    else (y, m, n - preceding + 1).

Definition valid_date (y m d : Z) : bool :=
  (1 <=? y) && (y <=? 9999) && (1 <=? m) && (m <=? 12)
  && (1 <=? d) && (d <=? days_in_month y m).

Definition valid_time (hh mm ss us : Z) : bool :=
  (0 <=? hh) && (hh <=? 23) && (0 <=? mm) && (mm <=? 59)
  && (0 <=? ss) && (ss <=? 59) && (0 <=? us) && (us <=? 999999).

End Calendar.

(** Every [datetime] object satisfies this; the constructor enforces it. *)
Definition valid_datetime (t : datetime) : bool :=
  Calendar.valid_date (year t) (month t) (day t)
  && Calendar.valid_time (hour t) (minute t) (second t) (microsecond t).

(** [datetime(y, m, d, hh, mm, ss, us)]: [ValueError] on a field out of range. *)
Definition datetime_new (y m d hh mm ss us : Z) : Res datetime :=
  if negb (Calendar.valid_date y m d) then Raise (ValueError "date field out of range")
  else if negb (Calendar.valid_time hh mm ss us) then Raise (ValueError "time field out of range")
  else Ok (Datetime y m d hh mm ss us).

Definition toordinal (t : datetime) : Z :=
  Calendar.ymd2ord (year t) (month t) (day t).

(** [t.weekday()]: Monday is 0, Sunday is 6. *)
Definition weekday (t : datetime) : Z := (toordinal t + 6) mod 7.

(** [t - timedelta(days=k)]: the date moves back by [k] days, the time of
    day is kept; [OverflowError] when the date leaves [1 .. MAXORDINAL]. *)
Definition datetime_sub_days (t : datetime) (k : Z) : Res datetime :=
  let days := toordinal t - k in
  if (0 <? days) && (days <=? Calendar.MAXORDINAL) then
    let '(y, m, d) := Calendar.ord2ymd days in
    Ok (Datetime y m d (hour t) (minute t) (second t) (microsecond t))
  else Raise (OverflowError "date value out of range").

(** The tuple two instants are compared by. *)
Definition datetime_fields (t : datetime) : list Z :=
  [year t; month t; day t; hour t; minute t; second t; microsecond t].

Fixpoint lex_compare (a b : list Z) : comparison :=
  match a, b with
  | [], [] => Eq
  | [], _ :: _ => Lt
  | _ :: _, [] => Gt
  | x :: a', y :: b' =>
      match Z.compare x y with
      | Eq => lex_compare a' b'
      | c => c
      end
  end.

Definition datetime_compare (a b : datetime) : comparison :=
  lex_compare (datetime_fields a) (datetime_fields b).

(** [a >= b] *)
Definition datetime_geb (a b : datetime) : bool :=
  match datetime_compare a b with Lt => false | _ => true end.

(** [a > b] *)
Definition datetime_gtb (a b : datetime) : bool :=
  match datetime_compare a b with Gt => true | _ => false end.

(** [t.isoformat()] *)
Definition isoformat (t : datetime) : string :=
  Str.zero_padded 4 (year t) ++ "-" ++ Str.zero_padded 2 (month t) ++ "-"
  ++ Str.zero_padded 2 (day t) ++ "T" ++ Str.zero_padded 2 (hour t) ++ ":"
  ++ Str.zero_padded 2 (minute t) ++ ":" ++ Str.zero_padded 2 (second t)
  ++ (if microsecond t =? 0 then "" else "." ++ Str.zero_padded 6 (microsecond t)).

(** [t.strftime("%Y%m%d_%H%M%S")] *)
Definition strftime_compact (t : datetime) : string :=
  Str.zero_padded 4 (year t) ++ Str.zero_padded 2 (month t)
  ++ Str.zero_padded 2 (day t) ++ "_" ++ Str.zero_padded 2 (hour t)
  ++ Str.zero_padded 2 (minute t) ++ Str.zero_padded 2 (second t).

(** ** Data model (app/models.py) *)

(** Free-form key-value payloads ([Dict[str, Any]] stored as JSON). *)
#[local] Unset Elimination Schemes.
Inductive json : Type :=
| JNull
| JBool (b : bool)
| JNum (n : Z)
| JStr (s : string)
| JArr (items : list json)
| JObj (fields : list (string * json)).
#[local] Set Elimination Schemes.

Module User.
Record t : Type := Build {
  id : option Z;
  username : string;
  password_hash : string;
  full_name : string;
  email : option string;
  is_active : bool;
  created_at : datetime;
  last_login : option datetime
}.
Definition set_id (i : option Z) (u : t) : t :=
  Build i (username u) (password_hash u) (full_name u) (email u)
        (is_active u) (created_at u) (last_login u).
Definition set_last_login (l : option datetime) (u : t) : t :=
  Build (id u) (username u) (password_hash u) (full_name u) (email u)
        (is_active u) (created_at u) l.
End User.

Module Photo.
Record t : Type := Build {
  id : option Z;
  filename : string;
  original_filename : string;
  file_path : string;
  file_size : Z;
  mime_type : string;
  uploaded_at : datetime;
  photo_metadata : json
}.
Definition set_id (i : option Z) (p : t) : t :=
  Build i (filename p) (original_filename p) (file_path p) (file_size p)
        (mime_type p) (uploaded_at p) (photo_metadata p).
End Photo.

Module DataCollection.
Record t : Type := Build {
  id : option Z;
  customer_name : string;
  description : string;
  submission_date : datetime;
  user_id : Z;
  photo_id : option Z;
  location_data : option json;
  device_info : option json;
  is_synchronized : bool;
  sync_error : option string
}.
Definition set_id (i : option Z) (c : t) : t :=
  Build i (customer_name c) (description c) (submission_date c) (user_id c)
        (photo_id c) (location_data c) (device_info c) (is_synchronized c)
        (sync_error c).
End DataCollection.

Module UserCreate.
Record t : Type := Build {
  username : string;
  password : string;
  full_name : string;
  email : option string
}.
End UserCreate.

Module UserLogin.
Record t : Type := Build {
  username : string;
  password : string
}.
End UserLogin.

Module DataCollectionCreate.
Record t : Type := Build {
  customer_name : string;
  description : string;
  photo_id : option Z;
  location_data : option json;
  device_info : option json
}.
End DataCollectionCreate.

Module DashboardStats.
Record t : Type := Build {
  total_collections : Z;
  collections_today : Z;
  collections_this_week : Z;
  collections_this_month : Z;
  pending_sync : Z;
  last_submission : option string
}.
End DashboardStats.

(** ** The world: relational store and upload directory *)

(** The three tables, rows in insertion order. *)
Record Store : Type := MkStore {
  users : list User.t;
  photos : list Photo.t;
  data_collections : list DataCollection.t
}.

(** What the disk does with the next write. *)
Inductive DiskStatus : Type :=
| DiskOk
| DiskRefuses                   (* the file is not even created *)
| DiskFillsAfter (n : nat).     (* the file is created, [n] bytes get through *)

Record World : Type := MkWorld {
  db : Store;
  db_up : bool;                 (* whether the database accepts statements *)
  dirs : gset string;
  files : gmap string (list Byte.byte);
  disk : DiskStatus;
  notifications : list (string * string)   (* [ui.notify(message, type=...)] *)
}.

Definition set_db (f : Store -> Store) (w : World) : World :=
  MkWorld (f (db w)) (db_up w) (dirs w) (files w) (disk w) (notifications w).
Definition set_dirs (f : gset string -> gset string) (w : World) : World :=
  MkWorld (db w) (db_up w) (f (dirs w)) (files w) (disk w) (notifications w).
Definition set_files
    (f : gmap string (list Byte.byte) -> gmap string (list Byte.byte))
    (w : World) : World :=
  MkWorld (db w) (db_up w) (dirs w) (f (files w)) (disk w) (notifications w).
Definition add_notification (n : string * string) (w : World) : World :=
  MkWorld (db w) (db_up w) (dirs w) (files w) (disk w) (notifications w ++ [n]).

(** ** The monad of service calls: state and exceptions *)

Definition M (A : Type) : Type := World -> Res A * World.

Definition ret {A} (a : A) : M A := fun w => (Ok a, w).
Definition raise {A} (e : exn) : M A := fun w => (Raise e, w).
Definition bind {A B} (m : M A) (k : A -> M B) : M B :=
  fun w => match m w with
           | (Ok a, w') => k a w'
           | (Raise e, w') => (Raise e, w')
           end.
Definition lift {A} (r : Res A) : M A := fun w => (r, w).
Definition gets {A} (f : World -> A) : M A := fun w => (Ok (f w), w).
Definition modify (f : World -> World) : M unit := fun w => (Ok tt, f w).

(** [if b: m] *)
Definition when (b : bool) (m : M unit) : M unit :=
  if b then m else ret tt.

(** [try: body  except Exception as e: handler e] *)
Definition try_except {A} (body : M A) (handler : exn -> M A) : M A :=
  fun w => match body w with
           | (Raise e, w') => handler e w'
           | r => r
           end.

(** The notations [x ← m; k] and [m;; k] are stdpp's, at these instances. *)
#[export] Instance M_ret : MRet M := @ret.
#[export] Instance M_bind : MBind M := fun A B k m => bind m k.

(** ** The session (sqlmodel.Session): statements against the store *)

(** What a table model provides. *)
Class Table (R : Type) : Type := {
  row_id : R -> option Z;
  with_id : option Z -> R -> R;
  rows : Store -> list R;
  set_rows : list R -> Store -> Store
}.

#[export] Instance User_table : Table User.t := {
  row_id := User.id;
  with_id := User.set_id;
  rows := users;
  set_rows l s := MkStore l (photos s) (data_collections s)
}.

#[export] Instance Photo_table : Table Photo.t := {
  row_id := Photo.id;
  with_id := Photo.set_id;
  rows := photos;
  set_rows l s := MkStore (users s) l (data_collections s)
}.

#[export] Instance DataCollection_table : Table DataCollection.t := {
  row_id := DataCollection.id;
  with_id := DataCollection.set_id;
  rows := data_collections;
  set_rows l s := MkStore (users s) (photos s) l
}.

(** Every statement fails when the database is down. *)
Definition statement : M unit :=
  fun w => if db_up w then (Ok tt, w)
           else (Raise (DatabaseError "database is not available"), w).

Definition has_id {R} `{Table R} (i : Z) (r : R) : bool :=
  match row_id r with
  | Some j => j =? i
  | None => false
  end.

(** The key given to the next inserted row: above every key in the table. *)
Definition next_id {R} `{Table R} (l : list R) : Z :=
  1 + List.fold_right (fun r acc => match row_id r with
                                    | Some j => Z.max j acc
                                    | None => acc
                                    end) 0 l.

(** [session.get(Model, i)] *)
Definition session_get {R} `{Table R} (i : Z) : M (option R) :=
  statement;;
  gets (fun w => List.find (has_id i) (rows (db w))).

(** [session.exec(select(Model).where(p)).first()] *)
Definition select_first {R} `{Table R} (p : R -> bool) : M (option R) :=
  statement;;
  gets (fun w => List.find p (rows (db w))).

(** [session.exec(select(Model).where(p)).all()] *)
Definition select_all {R} `{Table R} (p : R -> bool) : M (list R) :=
  statement;;
  gets (fun w => List.filter p (rows (db w))).

(** [session.add(r); session.commit()] for a new object: the row is inserted
    under a fresh key. *)
Definition commit_new {R} `{Table R} (r : R) : M R :=
  statement;;
  l ← gets (fun w => rows (db w));
  let r' := with_id (Some (next_id l)) r in
  modify (set_db (set_rows (l ++ [r'])));;
  ret r'.

(** [session.add(r); session.commit()] for an object loaded in this
    session: its row is rewritten. *)
Definition commit_changed {R} `{Table R} (r : R) : M unit :=
  statement;;
  l ← gets (fun w => rows (db w));
  modify (set_db (set_rows
    (List.map (fun r0 => match row_id r with
                         | Some i => if has_id i r0 then r else r0
                         | None => r0
                         end) l))).

(** [session.refresh(r)]: the row is read again by its key. *)
Definition refresh {R} `{Table R} (r : R) : M R :=
  match row_id r with
  | None => raise (DatabaseError "instance is not persistent")
  | Some i =>
      found ← session_get i;
      match found with
      | Some r' => ret r'
      | None => raise (DatabaseError "could not refresh instance")
      end
  end.

(** ** The filesystem (pathlib.Path methods) *)

(** The directories [mkdir(parents=True)] goes through, outermost first. *)
Fixpoint ancestors (above : string) (parts : list string) : list string :=
  match parts with
  | [] => []
  | p :: r =>
      let here := if String.eqb above "" then p else Path.join above p in
      here :: ancestors here r
  end.

(** [Path(d).mkdir(parents=True, exist_ok=True)] *)
Definition mkdir_parents (d : string) : M unit :=
  modify (set_dirs (fun ds => ds ∪ list_to_set (ancestors "" (Path.components d)))).

(** [Path(p).write_bytes(content)] *)
Definition write_bytes (p : string) (content : list Byte.byte) : M unit :=
  fun w => match disk w with
           | DiskOk => (Ok tt, set_files (insert p content) w)
           | DiskRefuses => (Raise (OSError "Permission denied"), w)
           | DiskFillsAfter n =>
               (Raise (OSError "No space left on device"),
                set_files (insert p (List.firstn n content)) w)
           end.

(** [Path(p).exists()] *)
Definition path_exists (p : string) : M bool :=
  gets (fun w => match files w !! p with Some _ => true | None => false end).

(** [Path(p).unlink()] *)
Definition unlink (p : string) : M unit :=
  modify (set_files (delete p)).

(** [ui.notify(message, type=kind)] *)
Definition ui_notify (message kind : string) : M unit :=
  modify (add_notification (message, kind)).

(** ** AuthService *)

(** [User.username == name] *)
Definition has_username (name : string) (u : User.t) : bool :=
  String.eqb (User.username u) name.

(** [rnd]: the bytes drawn for the salt; [now]: the instant the new row's
    [created_at] default reads. *)
Definition create_user (now : datetime) (rnd : list Byte.byte)
    (user_create : UserCreate.t) : M (option User.t) :=
  existing_user ←
    select_first (has_username (UserCreate.username user_create));
  match existing_user with
  | Some _ => ret None
  | None =>
      let user :=
        User.Build None
          (UserCreate.username user_create)
          (hash_password rnd (UserCreate.password user_create))
          (UserCreate.full_name user_create)
          (UserCreate.email user_create)
          true now None in
      user ← commit_new user;
      user ← refresh user;
      ret (Some user)
  end.

(** [now]: the instant [datetime.utcnow()] returns inside the call. *)
Definition authenticate_user (now : datetime) (login_data : UserLogin.t)
    : M (option User.t) :=
  user ←
    select_first (has_username (UserLogin.username login_data));
  match user with
  | None => ret None
  | Some user =>
      if negb (User.is_active user) then ret None
      else
        verified ← lift (verify_password (UserLogin.password login_data)
                                          (User.password_hash user));
        if negb verified then ret None
        else
          let user := User.set_last_login (Some now) user in
          commit_changed user;;
          user ← refresh user;
          ret (Some user)
  end.

Definition get_user_by_id (user_id : Z) : M (option User.t) :=
  session_get user_id.

(** ** PhotoService *)

Definition UPLOAD_DIR : string := "uploads/photos".
Definition ALLOWED_EXTENSIONS : gset string :=
  {[ ".jpg"; ".jpeg"; ".png"; ".gif"; ".webp" ]}.
Definition MAX_FILE_SIZE : Z := 10 * 1024 * 1024.

Definition len {A} (l : list A) : Z := Z.of_nat (List.length l).

Definition setup_upload_directory : M unit := mkdir_parents UPLOAD_DIR.

(** [now]: the instant read for the timestamp; [rnd]: the 8 bytes drawn
    for the token. *)
Definition generate_unique_filename (now : datetime) (rnd : list Byte.byte)
    (original_filename : string) : string :=
  let timestamp := strftime_compact now in
  let unique_id := token_hex rnd in
  timestamp ++ "_" ++ unique_id ++ Str.lower (Path.suffix original_filename).

Definition is_allowed_file (filename : string) : bool :=
  bool_decide (Str.lower (Path.suffix filename) ∈ ALLOWED_EXTENSIONS).

(** [now_name], [rnd]: what [generate_unique_filename] reads; [now_row]:
    the instant the new row's [uploaded_at] default reads. *)
Definition save_photo (now_name now_row : datetime) (rnd : list Byte.byte)
    (file_content : list Byte.byte) (original_filename mime_type : string)
    : M (option Photo.t) :=
  if negb (is_allowed_file original_filename) then ret None
  else if len file_content >? MAX_FILE_SIZE then ret None
  else
    setup_upload_directory;;
    let filename := generate_unique_filename now_name rnd original_filename in
    let file_path := Path.join UPLOAD_DIR filename in
    try_except
      (write_bytes file_path file_content;;
       let photo :=
         Photo.Build None filename original_filename file_path
                     (len file_content) mime_type now_row (JObj []) in
       photo ← commit_new photo;
       photo ← refresh photo;
       ret (Some photo))
      (fun e =>
         present ← path_exists file_path;
         when present (unlink file_path);;
         ui_notify ("Error saving photo: " ++ exn_str e) "negative";;
         ret None).

Definition get_photo_by_id (photo_id : Z) : M (option Photo.t) :=
  session_get photo_id.

(** ** DataCollectionService *)

(** [now]: the instant the new row's [submission_date] default reads. *)
Definition create_collection (now : datetime) (user_id : Z)
    (collection_data : DataCollectionCreate.t) : M (option DataCollection.t) :=
  let persist : M (option DataCollection.t) :=
    let collection :=
      DataCollection.Build None
        (DataCollectionCreate.customer_name collection_data)
        (DataCollectionCreate.description collection_data)
        now user_id
        (DataCollectionCreate.photo_id collection_data)
        (DataCollectionCreate.location_data collection_data)
        (DataCollectionCreate.device_info collection_data)
        false None in
    collection ← commit_new collection;
    collection ← refresh collection;
    ret (Some collection) in
  user ← session_get (R := User.t) user_id;
  match user with
  | None => ret None
  | Some _ =>
      match DataCollectionCreate.photo_id collection_data with
      | Some photo_id =>
          photo ← session_get (R := Photo.t) photo_id;
          match photo with
          | None => ret None
          | Some _ => persist
          end
      | None => persist
      end
  end.

(** [ORDER BY submission_date DESC]: a stable insertion sort, latest first. *)
Fixpoint insert_desc (c : DataCollection.t) (l : list DataCollection.t)
    : list DataCollection.t :=
  match l with
  | [] => [c]
  | x :: r =>
      if datetime_geb (DataCollection.submission_date c)
                      (DataCollection.submission_date x)
      then c :: l
      else x :: insert_desc c r
  end.

Definition order_by_desc (l : list DataCollection.t) : list DataCollection.t :=
  List.fold_right insert_desc [] l.

(** [LIMIT n]: the first [n] rows.  The code hands [n] to the database
    unchecked; SQLite reads a negative [n] as no limit at all and returns
    every row (other engines reject the statement). *)
Definition sql_limit {A} (n : Z) (l : list A) : list A :=
  if n <? 0 then l else List.firstn (Z.to_nat n) l.

(** A caller that leaves [limit] out passes its default, [100]. *)
Definition get_collections_by_user (user_id : Z) (limit : Z)
    : M (list DataCollection.t) :=
  statement;;
  gets (fun w =>
    sql_limit limit
      (order_by_desc
        (List.filter (fun c => DataCollection.user_id c =? user_id)
                     (data_collections (db w))))).

Definition get_collection_by_id (collection_id : Z) : M (option DataCollection.t) :=
  session_get collection_id.

(** [max(first :: rest, key=key)]: the first of the items with the largest key. *)
Fixpoint max_by_date {A} (key : A -> datetime) (best : A) (rest : list A) : A :=
  match rest with
  | [] => best
  | x :: r =>
      if datetime_gtb (key x) (key best) then max_by_date key x r
      else max_by_date key best r
  end.

(** [now]: the instant [datetime.utcnow()] returns inside the call. *)
Definition get_dashboard_stats (now : datetime) (user_id : Z) : M DashboardStats.t :=
  today_start ← lift (datetime_new (year now) (month now) (day now) 0 0 0 0);
  week_start ← lift (datetime_sub_days now (weekday now));
  month_start ← lift (datetime_new (year now) (month now) 1 0 0 0 0);
  total_collections ←
    select_all (fun c : DataCollection.t => DataCollection.user_id c =? user_id);
  let since start :=
    List.filter (fun c => datetime_geb (DataCollection.submission_date c) start)
                total_collections in
  let collections_today := since today_start in
  let collections_this_week := since week_start in
  let collections_this_month := since month_start in
  let pending_sync :=
    List.filter (fun c => negb (DataCollection.is_synchronized c)) total_collections in
  let last_submission :=
    match total_collections with
    | [] => None
    | c :: r =>
        let last_collection := max_by_date DataCollection.submission_date c r in
        Some (isoformat (DataCollection.submission_date last_collection))
    end in
  ret (DashboardStats.Build
         (len total_collections) (len collections_today)
         (len collections_this_week) (len collections_this_month)
         (len pending_sync) last_submission).

(** ** Vocabulary of the statements *)

(** [a <= b] on instants. *)
Definition instant_le (a b : datetime) : Prop := datetime_geb b a = true.

(** The user's collections, as [get_dashboard_stats] selects them. *)
Definition collections_of (user_id : Z) (w : World) : list DataCollection.t :=
  List.filter (fun c => DataCollection.user_id c =? user_id) (data_collections (db w)).

(** How many of [l] were submitted at [start] or later. *)
Definition count_since (start : datetime) (l : list DataCollection.t) : Z :=
  len (List.filter (fun c => datetime_geb (DataCollection.submission_date c) start) l).

(** The week boundary the code computes: the Monday of the current week,
    at the current time of day. *)
Definition week_start_of (now : datetime) : datetime :=
  let '(y, m, d) := Calendar.ord2ymd (toordinal now - weekday now) in
  Datetime y m d (hour now) (minute now) (second now) (microsecond now).

(** The week boundary in the specification's words: the most recent Monday
    at midnight. *)
Definition spec_week_start (now : datetime) : datetime :=
  let '(y, m, d) := Calendar.ord2ymd (toordinal now - weekday now) in
  Datetime y m d 0 0 0 0.

(** What the three table models satisfy. *)
Class TableLaws (R : Type) `{Table R} : Prop := {
  row_id_with_id : forall (i : option Z) (r : R), row_id (with_id i r) = i;
  rows_set_rows : forall (l : list R) (s : Store), rows (set_rows l s) = l
}.

(** Key [i] resolves to a row of [l]. *)
Definition resolves {R} `{Table R} (i : Z) (l : list R) : Prop :=
  exists r, In r l /\ row_id r = Some i.

(** Stored rows carry their key. *)
Definition keyed (l : list User.t) : Prop :=
  forall u, In u l -> User.id u <> None.

(** The path [save_photo] writes to. *)
Definition target_path (now_name : datetime) (rnd : list Byte.byte)
    (original_filename : string) : string :=
  Path.join UPLOAD_DIR (generate_unique_filename now_name rnd original_filename).

(** ** Sample worlds and requests *)

Definition listing_world : World :=
  MkWorld
    (MkStore []
       []
       [ DataCollection.Build (Some 1) "A" "first" (Datetime 2024 1 1 9 0 0 0)
           1 None None None false None;
         DataCollection.Build (Some 2) "B" "second" (Datetime 2024 1 2 9 0 0 0)
           1 None None None false None;
         DataCollection.Build (Some 3) "C" "other user" (Datetime 2024 1 3 9 0 0 0)
           2 None None None false None ])
    true ∅ ∅ DiskOk [].

(** A Monday at noon; user 1 submitted one collection at nine that morning. *)
Definition monday_noon : datetime := Datetime 2024 1 1 12 0 0 0.

Definition monday_world : World :=
  MkWorld
    (MkStore
       [ User.Build (Some 1) "demo" (hash_password [Byte.x00] "demo123")
           "Demo User" None true (Datetime 2023 12 1 8 0 0 0) None ]
       []
       [ DataCollection.Build (Some 1) "John Doe" "visit"
           (Datetime 2024 1 1 9 0 0 0) 1 None None None false None ])
    true ∅ ∅ DiskOk [].

(** The same world with the database down. *)
Definition monday_world_db_down : World :=
  MkWorld (db monday_world) false ∅ ∅ DiskOk [].

Definition demo_signup : UserCreate.t :=
  UserCreate.Build "demo" "demo123" "Demo User" None.

Definition fieldworker_signup : UserCreate.t :=
  UserCreate.Build "fieldworker" "field123" "Field Worker" None.

Definition visit_without_photo : DataCollectionCreate.t :=
  DataCollectionCreate.Build "Jane Doe" "second visit" None None None.

Definition visit_with_unknown_photo : DataCollectionCreate.t :=
  DataCollectionCreate.Build "Jane Doe" "second visit" (Some 99999) None None.

(** ** Response projections (AuthService.to_user_response and siblings) *)

Module UserResponse.
Record t : Type := Build {
  id : Z;
  username : string;
  full_name : string;
  email : option string;
  is_active : bool;
  created_at : string;
  last_login : option string
}.
End UserResponse.

Module PhotoResponse.
Record t : Type := Build {
  id : Z;
  filename : string;
  original_filename : string;
  file_path : string;
  file_size : Z;
  mime_type : string;
  uploaded_at : string
}.
End PhotoResponse.

Module DataCollectionResponse.
Record t : Type := Build {
  id : Z;
  customer_name : string;
  description : string;
  submission_date : string;
  user_id : Z;
  photo_id : option Z;
  location_data : option json;
  device_info : option json;
  is_synchronized : bool;
  sync_error : option string
}.
End DataCollectionResponse.

(** [x or 0] for an optional integer: [None] and [0] both give [0]. *)
Definition or_zero (x : option Z) : Z :=
  match x with
  | Some n => if n =? 0 then 0 else n
  | None => 0
  end.

Definition to_user_response (user : User.t) : UserResponse.t :=
  UserResponse.Build
    (or_zero (User.id user))
    (User.username user)
    (User.full_name user)
    (User.email user)
    (User.is_active user)
    (isoformat (User.created_at user))
    (match User.last_login user with
     | Some t => Some (isoformat t)
     | None => None
     end).

Definition to_photo_response (photo : Photo.t) : PhotoResponse.t :=
  PhotoResponse.Build
    (or_zero (Photo.id photo))
    (Photo.filename photo)
    (Photo.original_filename photo)
    (Photo.file_path photo)
    (Photo.file_size photo)
    (Photo.mime_type photo)
    (isoformat (Photo.uploaded_at photo)).

Definition to_collection_response (collection : DataCollection.t)
    : DataCollectionResponse.t :=
  DataCollectionResponse.Build
    (or_zero (DataCollection.id collection))
    (DataCollection.customer_name collection)
    (DataCollection.description collection)
    (isoformat (DataCollection.submission_date collection))
    (DataCollection.user_id collection)
    (DataCollection.photo_id collection)
    (DataCollection.location_data collection)
    (DataCollection.device_info collection)
    (DataCollection.is_synchronized collection)
    (DataCollection.sync_error collection).

(** ** SessionManager (app/auth.py) *)

(** The per-browser storage [app.storage.user], on the four keys the
    program writes, each with the type it writes; an absent key is [None]. *)
Module SessionStorage.
Record t : Type := Build {
  user_id : option Z;
  username : option string;
  full_name : option string;
  is_authenticated : option bool
}.
(** The storage after [clear()], and of a fresh browser session. *)
Definition empty : t := Build None None None None.
End SessionStorage.

Module SessionManager.

(** Truth value of [storage.get(key)] for a boolean entry: an absent key
    gives [None], which is false. *)
Definition truthy (v : option bool) : bool :=
  match v with
  | Some b => b
  | None => false
  end.

Definition login_user (user : User.t) (storage : SessionStorage.t)
    : Res unit * SessionStorage.t :=
  match User.id user with
  | None => (Raise (ValueError "User ID cannot be None"), storage)
  | Some i =>
      (Ok tt,
       SessionStorage.Build (Some i) (Some (User.username user))
                            (Some (User.full_name user)) (Some true))
  end.

Definition logout_user (storage : SessionStorage.t) : Res unit * SessionStorage.t :=
  (Ok tt, SessionStorage.empty).

Definition get_current_user (storage : SessionStorage.t) : M (option User.t) :=
  if negb (truthy (SessionStorage.is_authenticated storage)) then ret None
  else
    match SessionStorage.user_id storage with
    | None => ret None
    | Some user_id => get_user_by_id user_id
    end.

Definition is_authenticated (storage : SessionStorage.t) : bool :=
  truthy (SessionStorage.is_authenticated storage).

End SessionManager.

(** ** Seed data (app/seed_data.py) *)

Definition demo_users : list UserCreate.t :=
  [ UserCreate.Build "demo" "demo123" "Demo User" (Some "demo@example.com");
    UserCreate.Build "fieldworker" "field123" "Field Worker"
                     (Some "fieldworker@example.com");
    UserCreate.Build "supervisor" "super123" "Field Supervisor"
                     (Some "supervisor@example.com") ].

(** What one turn of the seeding loop reads from its environment: the
    instant inside [authenticate_user], and, if it comes to creating the
    user, the instant and the salt bytes inside [create_user]. *)
Record Draw : Type := MkDraw {
  login_at : datetime;
  signup_at : datetime;
  salt_bytes : list Byte.byte
}.

(** The body of the loop of [create_demo_users], for one [user_data]. *)
Definition seed_user (d : Draw) (user_data : UserCreate.t) : M unit :=
  let login_data :=
    UserLogin.Build (UserCreate.username user_data) (UserCreate.password user_data) in
  existing_user ← authenticate_user (login_at d) login_data;
  match existing_user with
  | None =>
      user ← create_user (signup_at d) (salt_bytes d) user_data;
      ret tt
  | Some _ => ret tt
  end.

(** [for user_data in l: ...], the [i]-th turn reading [draws i]. *)
Fixpoint seed_users (draws : nat -> Draw) (i : nat) (l : list UserCreate.t)
    : M unit :=
  match l with
  | [] => ret tt
  | user_data :: rest =>
      seed_user (draws i) user_data;;
      seed_users draws (S i) rest
  end.

Definition create_demo_users (draws : nat -> Draw) : M unit :=
  seed_users draws 0 demo_users.

Definition seed_database (draws : nat -> Draw) : M unit :=
  create_demo_users draws.

(** ** Invariants of the store *)

(** Every row carries a key, and no key is carried twice. *)
Definition keys_ok {R} `{Table R} (l : list R) : Prop :=
  (forall r, In r l -> row_id r <> None) /\ List.NoDup (List.map row_id l).

(** Every collection refers to a stored user and, if to a photo, to a
    stored photo. *)
Definition references_ok (s : Store) : Prop :=
  forall c, In c (data_collections s) ->
    resolves (DataCollection.user_id c) (users s)
    /\ (forall p, DataCollection.photo_id c = Some p -> resolves p (photos s)).

Definition store_ok (s : Store) : Prop :=
  keys_ok (users s) /\ keys_ok (photos s) /\ keys_ok (data_collections s)
  /\ List.NoDup (List.map User.username (users s))
  /\ references_ok s.

(** [present] followed by those of [names] it lacks, each once, in order. *)
Definition add_missing (names present : list string) : list string :=
  List.fold_left
    (fun acc n => if List.existsb (String.eqb n) acc then acc else (acc ++ [n])%list)
    names present.

(** An empty database, up, with an empty upload directory. *)
Definition empty_world : World :=
  MkWorld (MkStore [] [] []) true ∅ ∅ DiskOk [].

(** Draws for the seeding loop. *)
Definition sample_draws (i : nat) : Draw :=
  MkDraw monday_noon monday_noon [Byte.x2a].

(** * Properties *)

(** ** Running the monad *)

Lemma bind_ok {A B} (m : M A) (k : A -> M B) (w w' : World) (a : A) :
  m w = (Ok a, w') -> (m ≫= k) w = k a w'.
Proof. intros E. unfold mbind, M_bind, bind. now rewrite E. Qed.

Lemma bind_raise {A B} (m : M A) (k : A -> M B) (w w' : World) (e : exn) :
  m w = (Raise e, w') -> (m ≫= k) w = (Raise e, w').
Proof. intros E. unfold mbind, M_bind, bind. now rewrite E. Qed.

Lemma statement_up (w : World) : db_up w = true -> statement w = (Ok tt, w).
Proof. intros E. unfold statement. now rewrite E. Qed.

Lemma statement_down (w : World) :
  db_up w = false ->
  statement w = (Raise (DatabaseError "database is not available"), w).
Proof. intros E. unfold statement. now rewrite E. Qed.

(** ** Known answers *)

Example sha256_constants :
  List.length SHA256.round_constants = 64%nat
  /\ List.hd 0 SHA256.round_constants = 1116352408
  /\ List.last SHA256.round_constants 0 = 3329325298
  /\ List.length SHA256.initial_words = 8%nat
  /\ List.hd 0 SHA256.initial_words = 1779033703.
Proof. repeat split. Qed.

Example sha256_abc :
  SHA256.hexdigest (Str.bytes_of "abc")
  = "ba7816bf8f01cfea414140de5dae2223b00361a396177a9cb410ff61f20015ad".
Proof. vm_compute. reflexivity. Qed.

Example hash_password_known :
  hash_password [Byte.x00; Byte.xff] "test123"
  = "00ff$e3f6f3ee1d6191ed79c119b8202907c8cb522eb4c51d1b01c3f584519321fe93".
Proof. vm_compute. reflexivity. Qed.

Example ord2ymd_leap_day :
  Calendar.ord2ymd (Calendar.ymd2ord 2024 2 29) = (2024, 2, 29).
Proof. reflexivity. Qed.

Example weekday_monday : weekday (Datetime 2024 1 1 12 0 0 0) = 0.
Proof. reflexivity. Qed.

Example isoformat_known :
  isoformat (Datetime 2024 1 1 12 0 5 0) = "2024-01-01T12:00:05"
  /\ isoformat (Datetime 2024 1 1 12 0 5 250) = "2024-01-01T12:00:05.000250".
Proof. split; reflexivity. Qed.

Example suffix_known :
  Path.suffix "a/b.JPG" = ".JPG" /\ Path.suffix "a" = ""
  /\ Path.suffix ".bashrc" = "" /\ Path.suffix "a." = ""
  /\ Path.suffix "x.tar.gz/" = ".gz".
Proof. repeat split; reflexivity. Qed.

Example is_allowed_file_known :
  is_allowed_file "a.JPG" = true /\ is_allowed_file "a.txt" = false
  /\ is_allowed_file "a" = false.
Proof. repeat split; vm_compute; reflexivity. Qed.

(** ** The order on instants *)

Lemma lex_compare_refl (a : list Z) : lex_compare a a = Eq.
Proof. induction a as [|x a IH]; simpl; [reflexivity|]. now rewrite Z.compare_refl. Qed.

Lemma lex_compare_antisym (a b : list Z) :
  lex_compare b a = CompOpp (lex_compare a b).
Proof.
  revert b. induction a as [|x a IH]; intros [|y b]; simpl; try reflexivity.
  rewrite (Z.compare_antisym x y).
  destruct (x ?= y); simpl; auto.
Qed.

Lemma lex_compare_trans_ge (a b c : list Z) :
  lex_compare a b <> Lt -> lex_compare b c <> Lt -> lex_compare a c <> Lt.
Proof.
  revert b c. induction a as [|x a IH]; intros [|y b] [|z c]; simpl;
    try congruence.
  destruct (Z.compare_spec x y), (Z.compare_spec y z), (Z.compare_spec x z);
    try congruence; try lia; subst; eauto.
Qed.

Lemma datetime_geb_refl (a : datetime) : datetime_geb a a = true.
Proof. unfold datetime_geb, datetime_compare. now rewrite lex_compare_refl. Qed.

Lemma datetime_geb_total (a b : datetime) :
  datetime_geb a b = false -> datetime_geb b a = true.
Proof.
  unfold datetime_geb, datetime_compare.
  rewrite (lex_compare_antisym (datetime_fields a) (datetime_fields b)).
  destruct (lex_compare _ _); simpl; congruence.
Qed.

Lemma datetime_geb_trans (a b c : datetime) :
  datetime_geb a b = true -> datetime_geb b c = true -> datetime_geb a c = true.
Proof.
  unfold datetime_geb, datetime_compare. intros H1 H2.
  pose proof (lex_compare_trans_ge (datetime_fields a) (datetime_fields b)
                                   (datetime_fields c)) as T.
  destruct (lex_compare (datetime_fields a) (datetime_fields b)); try discriminate;
  destruct (lex_compare (datetime_fields b) (datetime_fields c)); try discriminate;
  destruct (lex_compare (datetime_fields a) (datetime_fields c)); try reflexivity;
  exfalso; apply T; congruence.
Qed.

Lemma datetime_gtb_geb (a b : datetime) :
  datetime_gtb a b = false -> datetime_geb b a = true.
Proof.
  unfold datetime_gtb, datetime_geb, datetime_compare.
  rewrite (lex_compare_antisym (datetime_fields a) (datetime_fields b)).
  destruct (lex_compare _ _); simpl; congruence.
Qed.

Lemma datetime_gtb_geb_true (a b : datetime) :
  datetime_gtb a b = true -> datetime_geb a b = true.
Proof.
  unfold datetime_gtb, datetime_geb. destruct (datetime_compare a b); congruence.
Qed.

(** ** Listing a user's collections *)

Lemma sql_limit_nonneg {A} (n : Z) (l : list A) :
  0 <= n -> sql_limit n l = List.firstn (Z.to_nat n) l.
Proof.
  intros Hn. unfold sql_limit.
  replace (n <? 0) with false by (symmetry; apply Z.ltb_ge, Hn). reflexivity.
Qed.

Lemma sql_limit_negative {A} (n : Z) (l : list A) : n < 0 -> sql_limit n l = l.
Proof.
  intros Hn. unfold sql_limit.
  replace (n <? 0) with true by (symmetry; apply Z.ltb_lt, Hn). reflexivity.
Qed.

Section Listing.

Let later_first (a b : DataCollection.t) : Prop :=
  instant_le (DataCollection.submission_date b) (DataCollection.submission_date a).

Lemma insert_desc_In (c x : DataCollection.t) (l : list DataCollection.t) :
  In x (insert_desc c l) <-> x = c \/ In x l.
Proof.
  induction l as [|y l IH]; simpl.
  - intuition.
  - destruct (datetime_geb _ _); simpl; [intuition|]. rewrite IH. intuition.
Qed.

Lemma insert_desc_length (c : DataCollection.t) (l : list DataCollection.t) :
  List.length (insert_desc c l) = S (List.length l).
Proof.
  induction l as [|y l IH]; simpl; [reflexivity|].
  destruct (datetime_geb _ _); simpl; congruence.
Qed.

Lemma insert_desc_sorted (c : DataCollection.t) (l : list DataCollection.t) :
  StronglySorted later_first l -> StronglySorted later_first (insert_desc c l).
Proof.
  induction 1 as [|y l Hs IH Hall]; simpl.
  - constructor; constructor.
  - destruct (datetime_geb (DataCollection.submission_date c)
                           (DataCollection.submission_date y)) eqn:E.
    + constructor; [constructor; assumption|].
      constructor; [exact E|].
      rewrite List.Forall_forall in *. intros z Hz.
      unfold later_first, instant_le in *.
      eapply datetime_geb_trans; [exact E | apply Hall, Hz].
    + constructor; [assumption|].
      rewrite List.Forall_forall in *. intros z Hz.
      apply insert_desc_In in Hz. destruct Hz as [->|Hz].
      * apply datetime_geb_total, E.
      * apply Hall, Hz.
Qed.

Lemma order_by_desc_In (x : DataCollection.t) (l : list DataCollection.t) :
  In x (order_by_desc l) <-> In x l.
Proof.
  induction l as [|y l IH]; simpl; [tauto|].
  rewrite insert_desc_In, IH. intuition.
Qed.

Lemma order_by_desc_length (l : list DataCollection.t) :
  List.length (order_by_desc l) = List.length l.
Proof.
  induction l as [|y l IH]; simpl; [reflexivity|].
  now rewrite insert_desc_length, IH.
Qed.

Lemma order_by_desc_sorted (l : list DataCollection.t) :
  StronglySorted later_first (order_by_desc l).
Proof.
  induction l as [|y l IH]; simpl; [constructor|].
  now apply insert_desc_sorted.
Qed.

Lemma firstn_In {A} (n : nat) (l : list A) (x : A) :
  In x (List.firstn n l) -> In x l.
Proof.
  revert n. induction l as [|y l IH]; intros [|n]; simpl; try tauto.
  intros [->|H]; eauto.
Qed.

Lemma firstn_sorted {A} (R : A -> A -> Prop) (n : nat) (l : list A) :
  StronglySorted R l -> StronglySorted R (List.firstn n l).
Proof.
  revert n. induction l as [|x l IH]; intros [|n] Hs; simpl; try constructor.
  - apply IH. now inversion Hs.
  - inversion Hs as [|? ? _ Hall]; subst.
    rewrite List.Forall_forall in *. intros z Hz.
    apply Hall.
    eapply firstn_In, Hz.
Qed.

(** C9.  With the database up and a limit that is not negative,
    [get_collections_by_user] returns, without changing the world, rows
    of the collections table that all carry the given user id, in
    descending order of submission date (every row is at least as recent
    as every row after it), and at most [limit] of them; when the user has
    no more than [limit] collections, all of them are returned. *)
Theorem get_collections_by_user_sorted_bounded
    (user_id limit : Z) (w : World) :
  db_up w = true -> 0 <= limit ->
  exists l : list DataCollection.t,
    get_collections_by_user user_id limit w = (Ok l, w)
    /\ (forall c, In c l ->
          In c (data_collections (db w)) /\ DataCollection.user_id c = user_id)
    /\ StronglySorted
         (fun a b => datetime_geb (DataCollection.submission_date a)
                                  (DataCollection.submission_date b) = true) l
    /\ len l <= limit
    /\ len l = Z.min limit
                 (len (List.filter (fun c => DataCollection.user_id c =? user_id)
                                   (data_collections (db w)))).
Proof.
  intros Hup Hlim. eexists. split.
  { unfold get_collections_by_user.
    erewrite bind_ok by (apply statement_up, Hup). reflexivity. }
  rewrite sql_limit_nonneg by exact Hlim. unfold len. split; [|split; [|split]].
  - intros c Hc. apply firstn_In, order_by_desc_In, filter_In in Hc.
    destruct Hc as [Hin Hc]. apply Z.eqb_eq in Hc. now split.
  - apply firstn_sorted. apply order_by_desc_sorted.
  - rewrite length_firstn. lia.
  - rewrite length_firstn, order_by_desc_length. lia.
Qed.

End Listing.

Lemma get_collections_by_user_sorted_bounded_witness :
  exists l : list DataCollection.t,
    get_collections_by_user 1 100 listing_world = (Ok l, listing_world)
    /\ (forall c, In c l ->
          In c (data_collections (db listing_world)) /\ DataCollection.user_id c = 1)
    /\ StronglySorted
         (fun a b => datetime_geb (DataCollection.submission_date a)
                                  (DataCollection.submission_date b) = true) l
    /\ len l <= 100
    /\ len l = Z.min 100
                 (len (List.filter (fun c => DataCollection.user_id c =? 1)
                                   (data_collections (db listing_world)))).
Proof.
  apply (get_collections_by_user_sorted_bounded 1 100 listing_world);
    [reflexivity | lia].
Defined.

(** C9, for every limit: not so.  With limit [-1] the listing of user 1,
    who has two collections, returns both of them, latest first; its
    length, 2, is not at most the limit.  (No result could be: a length is
    never negative.) *)
Lemma get_collections_by_user_negative_limit :
  exists l : list DataCollection.t,
    get_collections_by_user 1 (-1) listing_world = (Ok l, listing_world)
    /\ List.map DataCollection.id l = [Some 2; Some 1]
    /\ len l = 2
    /\ ~ len l <= -1.
Proof.
  eexists. split; [vm_compute; reflexivity|].
  split; [reflexivity|]. split; [reflexivity|].
  vm_compute. intros H. apply H. reflexivity.
Qed.

(** ** The calendar *)

Lemma valid_datetime_fields (t : datetime) :
  valid_datetime t = true ->
  (1 <= year t <= 9999) /\ (1 <= month t <= 12)
  /\ (1 <= day t <= Calendar.days_in_month (year t) (month t))
  /\ Calendar.valid_time (hour t) (minute t) (second t) (microsecond t) = true.
Proof.
  unfold valid_datetime, Calendar.valid_date. intros H.
  apply andb_prop in H as [H Ht].
  repeat (apply andb_prop in H; destruct H as [H ?]).
  repeat match goal with
         | E : (_ <=? _) = true |- _ => apply Z.leb_le in E
         end.
  repeat split; try lia. exact Ht.
Qed.

Lemma month_cases (m : Z) :
  1 <= m <= 12 ->
  m = 1 \/ m = 2 \/ m = 3 \/ m = 4 \/ m = 5 \/ m = 6
  \/ m = 7 \/ m = 8 \/ m = 9 \/ m = 10 \/ m = 11 \/ m = 12.
Proof. lia. Qed.

Lemma days_in_month_pos (y m : Z) :
  1 <= m <= 12 -> 28 <= Calendar.days_in_month y m <= 31.
Proof.
  intros Hm. unfold Calendar.days_in_month.
  destruct (month_cases m Hm) as [->|[->|[->|[->|[->|[->|[->|[->|[->|[->|[->| ->]]]]]]]]]]];
    destruct (Calendar.is_leap y); simpl; lia.
Qed.

(** A date of the year is at most the year's length into it. *)
Lemma day_of_year_bound (y m d : Z) :
  1 <= m <= 12 -> 1 <= d <= Calendar.days_in_month y m ->
  1 <= Calendar.days_before_month y m + d
       <= 365 + (if Calendar.is_leap y then 1 else 0).
Proof.
  intros Hm. unfold Calendar.days_in_month, Calendar.days_before_month.
  destruct (month_cases m Hm) as [->|[->|[->|[->|[->|[->|[->|[->|[->|[->|[->| ->]]]]]]]]]]];
    destruct (Calendar.is_leap y); simpl; lia.
Qed.

Lemma days_before_year_bounds (y : Z) :
  1 <= y <= 9999 ->
  0 <= Calendar.days_before_year y
  /\ Calendar.days_before_year y
     + 365 + (if Calendar.is_leap y then 1 else 0) <= Calendar.MAXORDINAL.
Proof.
  intros Hy. unfold Calendar.days_before_year, Calendar.MAXORDINAL, Calendar.is_leap.
  assert (y = 9999 \/ y <= 9998) as [->|Hy'] by lia.
  - vm_compute. split; discriminate.
  - destruct ((y mod 4 =? 0) && (negb (y mod 100 =? 0) || (y mod 400 =? 0)));
      Z.div_mod_to_equations; lia.
Qed.

Lemma toordinal_bounds (t : datetime) :
  valid_datetime t = true -> 1 <= toordinal t <= Calendar.MAXORDINAL.
Proof.
  intros V. apply valid_datetime_fields in V as (Hy & Hm & Hd & _).
  unfold toordinal, Calendar.ymd2ord.
  pose proof (day_of_year_bound (year t) (month t) (day t) Hm Hd).
  pose proof (days_before_year_bounds (year t) Hy).
  lia.
Qed.

(** The date [weekday] days before a valid date is in range: the first
    day of the calendar is a Monday. *)
Lemma monday_in_range (t : datetime) :
  valid_datetime t = true ->
  0 < toordinal t - weekday t <= Calendar.MAXORDINAL.
Proof.
  intros V. pose proof (toordinal_bounds t V). unfold weekday.
  Z.div_mod_to_equations. lia.
Qed.

(** ** Dashboard statistics *)

Lemma datetime_new_today (now : datetime) :
  valid_datetime now = true ->
  datetime_new (year now) (month now) (day now) 0 0 0 0
  = Ok (Datetime (year now) (month now) (day now) 0 0 0 0).
Proof.
  intros V. unfold datetime_new.
  unfold valid_datetime in V. apply andb_prop in V as [-> _]. reflexivity.
Qed.

Lemma datetime_new_first_of_month (now : datetime) :
  valid_datetime now = true ->
  datetime_new (year now) (month now) 1 0 0 0 0
  = Ok (Datetime (year now) (month now) 1 0 0 0 0).
Proof.
  intros V. apply valid_datetime_fields in V as (Hy & Hm & _ & _).
  pose proof (days_in_month_pos (year now) (month now) Hm).
  unfold datetime_new, Calendar.valid_date.
  replace (1 <=? year now) with true by (symmetry; apply Z.leb_le; lia).
  replace (year now <=? 9999) with true by (symmetry; apply Z.leb_le; lia).
  replace (1 <=? month now) with true by (symmetry; apply Z.leb_le; lia).
  replace (month now <=? 12) with true by (symmetry; apply Z.leb_le; lia).
  replace (1 <=? Calendar.days_in_month (year now) (month now)) with true
    by (symmetry; apply Z.leb_le; lia).
  reflexivity.
Qed.

Lemma datetime_sub_weekday (now : datetime) :
  valid_datetime now = true ->
  datetime_sub_days now (weekday now) = Ok (week_start_of now).
Proof.
  intros V. pose proof (monday_in_range now V) as [Hlo Hhi].
  unfold datetime_sub_days, week_start_of.
  apply Z.ltb_lt in Hlo. apply Z.leb_le in Hhi. rewrite Hlo, Hhi. simpl.
  destruct (Calendar.ord2ymd _) as [[y m] d]. reflexivity.
Qed.

(** The week boundary keeps the time of day of [now]. *)
Lemma week_start_of_time (now : datetime) :
  hour (week_start_of now) = hour now
  /\ minute (week_start_of now) = minute now
  /\ second (week_start_of now) = second now
  /\ microsecond (week_start_of now) = microsecond now.
Proof.
  unfold week_start_of. destruct (Calendar.ord2ymd _) as [[y m] d].
  repeat split.
Qed.

(** What [get_dashboard_stats] returns, field by field. *)
Lemma get_dashboard_stats_computed (now : datetime) (user_id : Z) (w : World) :
  db_up w = true -> valid_datetime now = true ->
  let total := collections_of user_id w in
  get_dashboard_stats now user_id w
  = (Ok (DashboardStats.Build
           (len total)
           (count_since (Datetime (year now) (month now) (day now) 0 0 0 0) total)
           (count_since (week_start_of now) total)
           (count_since (Datetime (year now) (month now) 1 0 0 0 0) total)
           (len (List.filter (fun c => negb (DataCollection.is_synchronized c)) total))
           match total with
           | [] => None
           | c :: r =>
               Some (isoformat (DataCollection.submission_date
                                  (max_by_date DataCollection.submission_date c r)))
           end),
     w).
Proof.
  intros Hup V total. unfold get_dashboard_stats.
  erewrite bind_ok by (unfold lift; rewrite datetime_new_today by exact V; reflexivity).
  erewrite bind_ok by (unfold lift; rewrite datetime_sub_weekday by exact V; reflexivity).
  erewrite bind_ok
    by (unfold lift; rewrite datetime_new_first_of_month by exact V; reflexivity).
  erewrite bind_ok.
  2:{ unfold select_all. erewrite bind_ok by (apply statement_up, Hup). reflexivity. }
  reflexivity.
Qed.

(** [max] returns an item of the sequence whose key no other item exceeds. *)
Lemma max_by_date_spec {A} (key : A -> datetime) (rest : list A) (best : A) :
  In (max_by_date key best rest) (best :: rest)
  /\ forall x, In x (best :: rest) ->
       datetime_geb (key (max_by_date key best rest)) (key x) = true.
Proof.
  revert best. induction rest as [|y r IH]; intros best; simpl.
  - split; [now left|]. intros x [<-|[]]. apply datetime_geb_refl.
  - destruct (datetime_gtb (key y) (key best)) eqn:E.
    + destruct (IH y) as [Hin Hmax]. split.
      * simpl in Hin. tauto.
      * intros x [<-|Hx]; [|now apply Hmax].
        eapply datetime_geb_trans; [apply Hmax; now left|].
        now apply datetime_gtb_geb_true.
    + destruct (IH best) as [Hin Hmax]. split.
      * simpl in Hin. tauto.
      * intros x [<-|[<-|Hx]].
        -- apply Hmax. now left.
        -- eapply datetime_geb_trans; [apply Hmax; now left|].
           now apply datetime_gtb_geb.
        -- apply Hmax. now right.
Qed.

Lemma filter_length_mono {A} (p q : A -> bool) (l : list A) :
  (forall x, p x = true -> q x = true) ->
  len (List.filter p l) <= len (List.filter q l).
Proof.
  intros Hpq. unfold len. induction l as [|x l IH]; simpl; [lia|].
  destruct (p x) eqn:Ep.
  - rewrite (Hpq x Ep). simpl. lia.
  - destruct (q x); simpl; lia.
Qed.

Lemma filter_length_le_all {A} (p : A -> bool) (l : list A) :
  0 <= len (List.filter p l) <= len l.
Proof.
  unfold len. pose proof (List.filter_length_le p l). lia.
Qed.

Lemma count_since_mono (early late : datetime) (l : list DataCollection.t) :
  datetime_geb late early = true -> count_since late l <= count_since early l.
Proof.
  intros H. apply filter_length_mono. intros c Hc.
  eapply datetime_geb_trans; eassumption.
Qed.

Lemma today_after_month_start (now : datetime) :
  1 <= day now ->
  datetime_geb (Datetime (year now) (month now) (day now) 0 0 0 0)
               (Datetime (year now) (month now) 1 0 0 0 0) = true.
Proof.
  intros Hd. unfold datetime_geb, datetime_compare, datetime_fields. simpl.
  rewrite !Z.compare_refl.
  destruct (Z.compare_spec (day now) 1); try reflexivity. lia.
Qed.

(** C10.  With the database up and [now] a valid instant,
    [get_dashboard_stats] returns statistics in which
    [collections_today <= collections_this_month <= total_collections] and
    [pending_sync <= total_collections] (all counts being non-negative),
    and leaves the world as it was. *)
Theorem dashboard_stats_ordered (now : datetime) (user_id : Z) (w : World) :
  db_up w = true -> valid_datetime now = true ->
  exists s : DashboardStats.t,
    get_dashboard_stats now user_id w = (Ok s, w)
    /\ 0 <= DashboardStats.collections_today s
    /\ DashboardStats.collections_today s <= DashboardStats.collections_this_month s
    /\ DashboardStats.collections_this_month s <= DashboardStats.total_collections s
    /\ 0 <= DashboardStats.pending_sync s
    /\ DashboardStats.pending_sync s <= DashboardStats.total_collections s.
Proof.
  intros Hup V. eexists. split.
  { apply get_dashboard_stats_computed; assumption. }
  simpl. apply valid_datetime_fields in V as (_ & _ & Hd & _).
  repeat split.
  - apply filter_length_le_all.
  - apply count_since_mono, today_after_month_start. lia.
  - apply filter_length_le_all.
  - apply filter_length_le_all.
  - apply filter_length_le_all.
Qed.

Lemma dashboard_stats_ordered_witness :
  exists s : DashboardStats.t,
    get_dashboard_stats monday_noon 1 monday_world = (Ok s, monday_world)
    /\ 0 <= DashboardStats.collections_today s
    /\ DashboardStats.collections_today s <= DashboardStats.collections_this_month s
    /\ DashboardStats.collections_this_month s <= DashboardStats.total_collections s
    /\ 0 <= DashboardStats.pending_sync s
    /\ DashboardStats.pending_sync s <= DashboardStats.total_collections s.
Proof.
  apply (dashboard_stats_ordered monday_noon 1 monday_world); reflexivity.
Defined.

(** C1 (the code departs from the claim).  On Monday 2024-01-01 at noon,
    for a user whose only collection was submitted at 09:00 the same day,
    the most recent Monday at midnight is 2024-01-01T00:00:00 and one
    collection was submitted since; [get_dashboard_stats] nevertheless
    reports [collections_this_week = 0] next to [collections_today = 1],
    because its week boundary is Monday at noon. *)
Theorem dashboard_week_start_keeps_time_of_day :
  weekday monday_noon = 0
  /\ spec_week_start monday_noon = Datetime 2024 1 1 0 0 0 0
  /\ count_since (spec_week_start monday_noon) (collections_of 1 monday_world) = 1
  /\ week_start_of monday_noon = monday_noon
  /\ get_dashboard_stats monday_noon 1 monday_world
     = (Ok (DashboardStats.Build 1 1 0 1 1 (Some "2024-01-01T09:00:00")),
        monday_world).
Proof.
  repeat split; vm_compute; reflexivity.
Qed.

(** ** Splitting on a separator *)

Lemma contains_app (sep : ascii) (a b : string) :
  Str.contains sep (a ++ b)%string = Str.contains sep a || Str.contains sep b.
Proof.
  induction a as [|c a IH]; simpl; [reflexivity|].
  destruct (Ascii.eqb c sep); simpl; auto.
Qed.

Lemma split_not_nil (sep : ascii) (s : string) : Str.split sep s <> [].
Proof.
  destruct s as [|c s]; simpl; [discriminate|].
  destruct (Ascii.eqb c sep); [discriminate|].
  destruct (Str.split sep s); discriminate.
Qed.

(** A string without the separator is a single piece. *)
Lemma split_without_sep (sep : ascii) (s : string) :
  Str.contains sep s = false -> Str.split sep s = [s].
Proof.
  induction s as [|c s IH]; simpl; [reflexivity|].
  destruct (Ascii.eqb c sep); [discriminate|].
  intros H. now rewrite (IH H).
Qed.

(** The separator after a piece that has none ends that piece. *)
Lemma split_at_first_sep (sep : ascii) (a b : string) :
  Str.contains sep a = false ->
  Str.split sep (a ++ String sep b)%string = a :: Str.split sep b.
Proof.
  induction a as [|c a IH]; simpl.
  - intros _. now rewrite Ascii.eqb_refl.
  - destruct (Ascii.eqb c sep); [discriminate|].
    intros H. now rewrite (IH H).
Qed.

(** With no separator there is one piece; with one there are two. *)
Lemma split_length (sep : ascii) (s : string) :
  Str.contains sep s = false -> List.length (Str.split sep s) = 1%nat.
Proof. intros H. now rewrite split_without_sep. Qed.

(** ** Hexadecimal renderings *)

Lemma hex_digit_In (n : Z) : In (Str.hex_digit n) Str.hex_chars.
Proof.
  unfold Str.hex_digit.
  destruct (nth_in_or_default (Z.to_nat n) Str.hex_chars "0"%char) as [H|H].
  - exact H.
  - rewrite H. simpl. now left.
Qed.

Lemma hex_digit_not_dollar (n : Z) : Ascii.eqb (Str.hex_digit n) dollar = false.
Proof.
  pose proof (hex_digit_In n) as H. simpl in H.
  repeat (destruct H as [<-|H]; [reflexivity|]). destruct H.
Qed.

Lemma token_hex_no_dollar (rnd : list Byte.byte) :
  Str.contains dollar (token_hex rnd) = false.
Proof.
  induction rnd as [|b r IH]; simpl; [reflexivity|].
  now rewrite !hex_digit_not_dollar.
Qed.

Lemma hex8_no_dollar (x : Z) : Str.contains dollar (SHA256.hex8 x) = false.
Proof.
  unfold SHA256.hex8. cbv zeta. cbn [Str.contains].
  rewrite !hex_digit_not_dollar. reflexivity.
Qed.

Lemma hexdigest_no_dollar (msg : list Z) :
  Str.contains dollar (SHA256.hexdigest msg) = false.
Proof.
  unfold SHA256.hexdigest. cbv zeta.
  now rewrite !contains_app, !hex8_no_dollar.
Qed.

Lemma string_length_app (a b : string) :
  String.length (a ++ b)%string = (String.length a + String.length b)%nat.
Proof. induction a as [|c a IH]; simpl; [reflexivity | now rewrite IH]. Qed.

Lemma hex8_length (x : Z) : String.length (SHA256.hex8 x) = 8%nat.
Proof. unfold SHA256.hex8. cbv zeta. cbn [String.length]. reflexivity. Qed.

Lemma hexdigest_length (msg : list Z) :
  String.length (SHA256.hexdigest msg) = 64%nat.
Proof.
  unfold SHA256.hexdigest. cbv zeta.
  rewrite !string_length_app, !hex8_length. reflexivity.
Qed.

(** Distinct digits below sixteen are rendered differently. *)
Lemma hex_digit_inj (a b : Z) :
  0 <= a < 16 -> 0 <= b < 16 -> Str.hex_digit a = Str.hex_digit b -> a = b.
Proof.
  intros Ha Hb.
  assert (a = 0 \/ a = 1 \/ a = 2 \/ a = 3 \/ a = 4 \/ a = 5 \/ a = 6 \/ a = 7
          \/ a = 8 \/ a = 9 \/ a = 10 \/ a = 11 \/ a = 12 \/ a = 13 \/ a = 14
          \/ a = 15) as Ca by lia.
  assert (b = 0 \/ b = 1 \/ b = 2 \/ b = 3 \/ b = 4 \/ b = 5 \/ b = 6 \/ b = 7
          \/ b = 8 \/ b = 9 \/ b = 10 \/ b = 11 \/ b = 12 \/ b = 13 \/ b = 14
          \/ b = 15) as Cb by lia.
  clear Ha Hb.
  repeat (destruct Ca as [->|Ca]); try subst a;
    repeat (destruct Cb as [->|Cb]); try subst b;
    vm_compute; intros E; solve [reflexivity | discriminate E].
Qed.

Lemma byte_value_bounds (b : Byte.byte) : 0 <= Z.of_N (Byte.to_N b) < 256.
Proof. pose proof (Byte.to_N_bounded b). lia. Qed.

Lemma byte_value_inj (a b : Byte.byte) :
  Z.of_N (Byte.to_N a) = Z.of_N (Byte.to_N b) -> a = b.
Proof.
  intros H. apply N2Z.inj in H.
  pose proof (Byte.of_to_N a) as Ea. pose proof (Byte.of_to_N b) as Eb.
  rewrite H in Ea. congruence.
Qed.

(** Different draws give different tokens. *)
Lemma token_hex_inj (r1 r2 : list Byte.byte) :
  token_hex r1 = token_hex r2 -> r1 = r2.
Proof.
  revert r2. induction r1 as [|a r1 IH]; intros [|b r2]; simpl;
    try discriminate; [reflexivity|].
  intros E. injection E as Ehi Elo Erest.
  pose proof (byte_value_bounds a). pose proof (byte_value_bounds b).
  apply hex_digit_inj in Ehi; [|Z.div_mod_to_equations; lia ..].
  apply hex_digit_inj in Elo; [|Z.div_mod_to_equations; lia ..].
  f_equal; [|now apply IH].
  apply byte_value_inj. Z.div_mod_to_equations. lia.
Qed.

(** ** Password hasher *)

(** The encoded value splits into the salt and the digest. *)
Lemma hash_password_split (rnd : list Byte.byte) (p : string) :
  Str.split dollar (hash_password rnd p)
  = [token_hex rnd; SHA256.hexdigest (Str.bytes_of (p ++ token_hex rnd))].
Proof.
  unfold hash_password. cbv zeta.
  rewrite split_at_first_sep by apply token_hex_no_dollar.
  now rewrite split_without_sep by apply hexdigest_no_dollar.
Qed.

(** The two outcomes of unpacking the pieces. *)
Lemma verify_password_two_pieces (p encoded salt hash_value : string) :
  Str.split dollar encoded = [salt; hash_value] ->
  verify_password p encoded
  = Ok (String.eqb (SHA256.hexdigest (Str.bytes_of (p ++ salt))) hash_value).
Proof.
  intros E. unfold verify_password. rewrite E.
  cbn [unpack2 res_bind try_except_ValueError]. reflexivity.
Qed.

Lemma verify_password_other_pieces (p encoded : string) :
  List.length (Str.split dollar encoded) <> 2%nat ->
  verify_password p encoded = Ok false.
Proof.
  intros H. unfold verify_password.
  destruct (Str.split dollar encoded) as [|a [|b [|c l]]];
    cbn [unpack2 res_bind try_except_ValueError List.length] in *;
    try reflexivity.
  congruence.
Qed.

Lemma verify_password_total (p encoded : string) :
  exists b : bool, verify_password p encoded = Ok b.
Proof.
  destruct (Str.split dollar encoded) as [|a [|b [|c l]]] eqn:E.
  - eexists. apply verify_password_other_pieces. now rewrite E.
  - eexists. apply verify_password_other_pieces. now rewrite E.
  - eexists. eapply verify_password_two_pieces, E.
  - eexists. apply verify_password_other_pieces. now rewrite E.
Qed.

Lemma hash_password_verifies (rnd : list Byte.byte) (p : string) :
  verify_password p (hash_password rnd p) = Ok true.
Proof.
  rewrite (verify_password_two_pieces _ _ _ _ (hash_password_split rnd p)).
  now rewrite String.eqb_refl.
Qed.

Lemma hash_password_salt_differs (rnd1 rnd2 : list Byte.byte) (p : string) :
  token_hex rnd1 <> token_hex rnd2 ->
  hash_password rnd1 p <> hash_password rnd2 p.
Proof.
  intros Hne E. apply Hne.
  pose proof (hash_password_split rnd1 p) as S1.
  pose proof (hash_password_split rnd2 p) as S2.
  rewrite E in S1. congruence.
Qed.

(** C3.  For every password and every draw of the random source, the
    encoded value [hash_password] builds verifies against that password;
    and two draws that differ (equivalently: whose salts differ) give
    different encoded values for the same password. *)
Theorem hash_password_verifies_and_salts (p : string) :
  (forall rnd, verify_password p (hash_password rnd p) = Ok true)
  /\ (forall rnd1 rnd2, token_hex rnd1 <> token_hex rnd2 ->
        hash_password rnd1 p <> hash_password rnd2 p)
  /\ (forall rnd1 rnd2, rnd1 <> rnd2 ->
        hash_password rnd1 p <> hash_password rnd2 p).
Proof.
  repeat split.
  - intros rnd. apply hash_password_verifies.
  - intros rnd1 rnd2. apply hash_password_salt_differs.
  - intros rnd1 rnd2 Hne. apply hash_password_salt_differs.
    intros E. apply Hne. now apply token_hex_inj.
Qed.

Lemma hash_password_verifies_and_salts_witness :
  verify_password "test123" (hash_password [Byte.x00; Byte.xff] "test123") = Ok true
  /\ hash_password [Byte.x00; Byte.xff] "test123"
     <> hash_password [Byte.x00; Byte.xfe] "test123".
Proof.
  destruct (hash_password_verifies_and_salts "test123") as (Hv & _ & Hd).
  split; [apply Hv|]. apply Hd. discriminate.
Defined.

(** C5.  For every password, an encoded value that does not split into
    exactly two pieces on ['$'] is refused: [verify_password] returns
    [False], it does not raise. *)
Theorem verify_password_malformed (p encoded : string) :
  List.length (Str.split dollar encoded) <> 2%nat ->
  verify_password p encoded = Ok false.
Proof.
  apply verify_password_other_pieces.
Qed.

Lemma verify_password_malformed_witness :
  List.length (Str.split dollar "malformed") <> 2%nat
  /\ verify_password "test123" "malformed" = Ok false.
Proof.
  split; [vm_compute; discriminate|].
  apply (verify_password_malformed "test123" "malformed").
  vm_compute. discriminate.
Defined.

(** ** The session *)

#[export] Instance User_table_laws : TableLaws User.t.
Proof. split; reflexivity. Qed.

#[export] Instance Photo_table_laws : TableLaws Photo.t.
Proof. split; reflexivity. Qed.

#[export] Instance DataCollection_table_laws : TableLaws DataCollection.t.
Proof. split; reflexivity. Qed.

Section Session.

Context {R : Type} `{TableLaws R}.

Lemma has_id_true (i : Z) (r : R) : has_id i r = true <-> row_id r = Some i.
Proof.
  unfold has_id. destruct (row_id r) as [j|]; [|split; discriminate].
  rewrite Z.eqb_eq. split; congruence.
Qed.

Lemma find_has_id_None (i : Z) (l : list R) :
  List.find (has_id i) l = None <-> ~ resolves i l.
Proof.
  split.
  - intros E (r & Hin & Hr).
    pose proof (List.find_none _ _ E r Hin) as F.
    apply has_id_true in Hr. congruence.
  - intros N. destruct (List.find (has_id i) l) as [r|] eqn:E; [|reflexivity].
    apply List.find_some in E as [Hin Hr]. apply has_id_true in Hr.
    exfalso. apply N. now exists r.
Qed.

Lemma find_has_id_Some (i : Z) (l : list R) :
  resolves i l -> exists r, List.find (has_id i) l = Some r /\ In r l /\ row_id r = Some i.
Proof.
  intros Hres. destruct (List.find (has_id i) l) as [r|] eqn:E.
  - exists r. apply List.find_some in E as [Hin Hr]. apply has_id_true in Hr. auto.
  - apply find_has_id_None in E. contradiction.
Qed.

(** Every key of the table is below the next one. *)
Lemma next_id_above (l : list R) (r : R) (j : Z) :
  In r l -> row_id r = Some j -> j < next_id l.
Proof.
  unfold next_id. induction l as [|x l IH]; simpl; [tauto|].
  intros [->|Hin] Hj.
  - rewrite Hj. lia.
  - specialize (IH Hin Hj). destruct (row_id x); lia.
Qed.

Lemma next_id_pos (l : list R) : 1 <= next_id l.
Proof.
  unfold next_id. induction l as [|x l IH]; simpl; [lia|].
  destruct (row_id x); lia.
Qed.

Lemma next_id_fresh (l : list R) : ~ resolves (next_id l) l.
Proof.
  intros (r & Hin & Hr). pose proof (next_id_above l r _ Hin Hr). lia.
Qed.

Lemma find_appended (i : Z) (l : list R) (r : R) :
  ~ resolves i l -> row_id r = Some i ->
  List.find (has_id i) (l ++ [r])%list = Some r.
Proof.
  intros N Hr. induction l as [|x l IH]; simpl.
  - apply has_id_true in Hr. now rewrite Hr.
  - destruct (has_id i x) eqn:E.
    + exfalso. apply N. exists x. split; [now left|]. now apply has_id_true.
    + apply IH. intros (y & Hin & Hy). apply N. exists y. split; [now right|assumption].
Qed.

Lemma session_get_up (i : Z) (w : World) :
  db_up w = true ->
  session_get i w = (Ok (List.find (has_id i) (rows (db w))), w).
Proof.
  intros Hup. unfold session_get.
  erewrite bind_ok by (apply statement_up, Hup). reflexivity.
Qed.

Lemma select_first_up (p : R -> bool) (w : World) :
  db_up w = true ->
  select_first p w = (Ok (List.find p (rows (db w))), w).
Proof.
  intros Hup. unfold select_first.
  erewrite bind_ok by (apply statement_up, Hup). reflexivity.
Qed.

(** Inserting a row and reading it back: the row is appended under the
    next key, and it is the row the key resolves to. *)
Lemma commit_new_refresh (r : R) (w : World) :
  db_up w = true ->
  let r' := with_id (Some (next_id (rows (db w)))) r in
  let w' := set_db (set_rows (rows (db w) ++ [r'])%list) w in
  (commit_new r ≫= refresh) w = (Ok r', w')
  /\ rows (db w') = (rows (db w) ++ [r'])%list
  /\ session_get (next_id (rows (db w))) w' = (Ok (Some r'), w').
Proof.
  intros Hup r' w'.
  assert (rows (db w') = (rows (db w) ++ [r'])%list) as Hrows.
  { unfold w'. simpl. apply rows_set_rows. }
  assert (session_get (next_id (rows (db w))) w' = (Ok (Some r'), w')) as Hget.
  { rewrite session_get_up by exact Hup. rewrite Hrows.
    rewrite find_appended; [reflexivity | apply next_id_fresh |].
    unfold r'. apply row_id_with_id. }
  split; [|split; assumption].
  erewrite bind_ok.
  2:{ unfold commit_new.
      erewrite bind_ok by (apply statement_up, Hup).
      erewrite bind_ok by reflexivity.
      erewrite bind_ok by reflexivity.
      reflexivity. }
  fold r'. fold w'. unfold refresh. unfold r' at 1. rewrite row_id_with_id.
  erewrite bind_ok by exact Hget. reflexivity.
Qed.

(** Statements fail when the database is down, and change nothing. *)
Lemma commit_new_down (r : R) (w : World) :
  db_up w = false ->
  commit_new r w = (Raise (DatabaseError "database is not available"), w).
Proof.
  intros Hdown. unfold commit_new.
  now erewrite bind_raise by (apply statement_down, Hdown).
Qed.

(** Rewriting a loaded row and reading it back. *)
Lemma find_rewritten (i : Z) (l : list R) (r : R) :
  resolves i l -> row_id r = Some i ->
  List.find (has_id i)
    (List.map (fun r0 => if has_id i r0 then r else r0) l) = Some r.
Proof.
  intros (x & Hin & Hx) Hr. apply has_id_true in Hx, Hr.
  induction l as [|y l IH]; simpl; [destruct Hin|].
  destruct (has_id i y) eqn:E.
  - now rewrite Hr.
  - rewrite E. destruct Hin as [->|Hin]; [congruence|]. now apply IH.
Qed.

Lemma commit_changed_refresh (i : Z) (r : R) (w : World) :
  db_up w = true -> row_id r = Some i -> resolves i (rows (db w)) ->
  let w' := set_db (set_rows
              (List.map (fun r0 => if has_id i r0 then r else r0) (rows (db w)))) w in
  (commit_changed r ≫= fun _ => refresh r) w = (Ok r, w')
  /\ session_get i w' = (Ok (Some r), w').
Proof.
  intros Hup Hr Hres w'.
  assert (session_get i w' = (Ok (Some r), w')) as Hget.
  { rewrite session_get_up by exact Hup. unfold w'. simpl.
    rewrite rows_set_rows. now rewrite find_rewritten. }
  split; [|exact Hget].
  erewrite bind_ok.
  2:{ unfold commit_changed.
      erewrite bind_ok by (apply statement_up, Hup).
      erewrite bind_ok by reflexivity.
      rewrite Hr. reflexivity. }
  fold w'. unfold refresh. rewrite Hr.
  erewrite bind_ok by exact Hget. reflexivity.
Qed.

End Session.

(** ** Auth service *)

Lemma find_username_taken (name : string) (l : list User.t) :
  (exists u, In u l /\ User.username u = name) ->
  exists u, List.find (has_username name) l = Some u.
Proof.
  intros (u & Hin & Hu).
  destruct (List.find (has_username name) l) as [v|] eqn:E; [eauto|].
  pose proof (List.find_none _ _ E u Hin) as F.
  unfold has_username in F. rewrite Hu, String.eqb_refl in F. discriminate.
Qed.

Lemma find_username_free (name : string) (l : list User.t) :
  (forall u, In u l -> User.username u <> name) ->
  List.find (has_username name) l = None.
Proof.
  intros Hfree. destruct (List.find (has_username name) l) as [v|] eqn:E;
    [|reflexivity].
  apply List.find_some in E as [Hin Hv]. unfold has_username in Hv.
  apply String.eqb_eq in Hv. now apply Hfree in Hin.
Qed.

(** C6.  With the database up: when some stored user already has the
    requested username, [create_user] returns [None] (it does not raise)
    and the world, hence every stored record, is unchanged; when no stored
    user has it, [create_user] appends one user row (active, carrying the
    hash of the password under the drawn salt, under the next key) to the
    users table, returns that row, the key resolves to it, and the stored
    hash verifies against the password. *)
Theorem create_user_unique_username
    (now : datetime) (rnd : list Byte.byte) (user_create : UserCreate.t)
    (w : World) :
  db_up w = true ->
  ((exists u, In u (users (db w))
              /\ User.username u = UserCreate.username user_create) ->
   create_user now rnd user_create w = (Ok None, w))
  /\
  ((forall u, In u (users (db w)) ->
              User.username u <> UserCreate.username user_create) ->
   let key := next_id (users (db w)) in
   let user :=
     User.Build (Some key)
       (UserCreate.username user_create)
       (hash_password rnd (UserCreate.password user_create))
       (UserCreate.full_name user_create)
       (UserCreate.email user_create)
       true now None in
   let w' := set_db (fun s => MkStore (users s ++ [user])%list (photos s)
                                      (data_collections s)) w in
   create_user now rnd user_create w = (Ok (Some user), w')
   /\ get_user_by_id key w' = (Ok (Some user), w')
   /\ verify_password (UserCreate.password user_create) (User.password_hash user)
      = Ok true).
Proof.
  intros Hup. split.
  - intros Htaken.
    apply find_username_taken in Htaken as [u Hu].
    unfold create_user.
    erewrite bind_ok by (rewrite select_first_up by exact Hup; reflexivity).
    change (rows (db w)) with (users (db w)). rewrite Hu. reflexivity.
  - intros Hfree key user w'.
    apply find_username_free in Hfree.
    destruct (commit_new_refresh
                (User.Build None
                   (UserCreate.username user_create)
                   (hash_password rnd (UserCreate.password user_create))
                   (UserCreate.full_name user_create)
                   (UserCreate.email user_create)
                   true now None) w Hup) as (Hrun & _ & Hget).
    split; [|split].
    + unfold create_user.
      erewrite bind_ok by (rewrite select_first_up by exact Hup; reflexivity).
      change (rows (db w)) with (users (db w)). rewrite Hfree.
      unfold mbind, M_bind, bind in Hrun |- *.
      destruct (commit_new _ w) as [[r|e] w1]; [|discriminate Hrun].
      rewrite Hrun. reflexivity.
    + exact Hget.
    + apply hash_password_verifies.
Qed.

Lemma create_user_unique_username_witness :
  create_user monday_noon [Byte.x2a] demo_signup monday_world
  = (Ok None, monday_world)
  /\ exists user w',
       create_user monday_noon [Byte.x2a] fieldworker_signup monday_world
       = (Ok (Some user), w')
       /\ User.id user = Some 2 /\ User.is_active user = true
       /\ get_user_by_id 2 w' = (Ok (Some user), w').
Proof.
  destruct (create_user_unique_username monday_noon [Byte.x2a] demo_signup
              monday_world eq_refl) as [Htaken _].
  destruct (create_user_unique_username monday_noon [Byte.x2a] fieldworker_signup
              monday_world eq_refl) as [_ Hfree].
  split.
  - apply Htaken. eexists. split; [left; reflexivity | reflexivity].
  - destruct Hfree as (Hrun & Hget & _).
    + intros u [<-|[]]. vm_compute. discriminate.
    + do 2 eexists. split; [exact Hrun|]. split; [reflexivity|].
      split; [reflexivity | exact Hget].
Defined.

(** C4.  With the database up and every stored user carrying a key:
    [authenticate_user] returns [None] and leaves the world unchanged when
    no stored user has the username, when the first such user is inactive,
    and when the password does not verify against the stored hash (three
    cases with the same outcome); otherwise it rewrites that user's row
    with [last_login] set to the instant read inside the call (which is at
    least any instant that instant is at least), returns the row as stored,
    whose key is the one it had, and changes nothing else. *)
Theorem authenticate_user_outcomes
    (now : datetime) (login_data : UserLogin.t) (w : World) :
  db_up w = true -> keyed (users (db w)) ->
  let found :=
    List.find (has_username (UserLogin.username login_data)) (users (db w)) in
  let verified (u : User.t) :=
    verify_password (UserLogin.password login_data) (User.password_hash u) in
  (found = None -> authenticate_user now login_data w = (Ok None, w))
  /\ (forall u, found = Some u -> User.is_active u = false ->
        authenticate_user now login_data w = (Ok None, w))
  /\ (forall u, found = Some u -> verified u <> Ok true ->
        authenticate_user now login_data w = (Ok None, w))
  /\ (forall u, found = Some u -> User.is_active u = true ->
        verified u = Ok true ->
        exists (key : Z) (user : User.t) (w' : World),
          authenticate_user now login_data w = (Ok (Some user), w')
          /\ User.id u = Some key /\ User.id user = Some key
          /\ user = User.set_last_login (Some now) u
          /\ User.last_login user = Some now
          /\ (forall before, datetime_geb now before = true ->
                exists t, User.last_login user = Some t
                          /\ datetime_geb t before = true)
          /\ get_user_by_id key w' = (Ok (Some user), w')
          /\ users (db w')
             = List.map (fun r => if has_id key r then user else r) (users (db w))
          /\ photos (db w') = photos (db w)
          /\ data_collections (db w') = data_collections (db w)
          /\ files w' = files w).
Proof.
  intros Hup Hkeyed found verified.
  assert (forall o, found = o ->
            authenticate_user now login_data w
            = match o with
              | None => ret None
              | Some user =>
                  if negb (User.is_active user) then ret None
                  else
                    ok ← lift (verified user);
                    if negb ok then ret None
                    else
                      let user := User.set_last_login (Some now) user in
                      commit_changed user;;
                      user ← refresh user;
                      ret (Some user)
              end w) as Hrun.
  { intros o <-. unfold authenticate_user.
    erewrite bind_ok by (rewrite select_first_up by exact Hup; reflexivity).
    reflexivity. }
  repeat split.
  - intros E. now rewrite (Hrun _ E).
  - intros u E Hinactive. rewrite (Hrun _ E), Hinactive. reflexivity.
  - intros u E Hbad. rewrite (Hrun _ E).
    destruct (User.is_active u); [|reflexivity]. cbn [negb].
    destruct (verify_password_total (UserLogin.password login_data)
                                    (User.password_hash u)) as [b Hb].
    fold (verified u) in Hb.
    erewrite bind_ok by (unfold lift; rewrite Hb; reflexivity).
    destruct b; [contradiction|reflexivity].
  - intros u E Hactive Hgood.
    assert (In u (users (db w))) as Hin
        by (apply List.find_some in E; tauto).
    destruct (User.id u) as [key|] eqn:Hkey;
      [|exfalso; now apply (Hkeyed u Hin)].
    pose (user := User.set_last_login (Some now) u).
    assert (resolves key (users (db w))) as Hres by (exists u; auto).
    assert (row_id user = Some key) as Hkey' by exact Hkey.
    destruct (commit_changed_refresh key user w Hup Hkey' Hres) as [Hcommit Hget].
    exists key, user, (set_db (set_rows
      (List.map (fun r0 => if has_id key r0 then user else r0) (users (db w)))) w).
    split.
    { rewrite (Hrun _ E), Hactive. cbn [negb].
      erewrite bind_ok by (unfold lift; rewrite Hgood; reflexivity).
      cbn [negb]. fold user.
      unfold mbind, M_bind, bind in Hcommit |- *.
      destruct (commit_changed user w) as [[[]|e] w1]; [|discriminate Hcommit].
      rewrite Hcommit. reflexivity. }
    repeat split; try reflexivity; try assumption.
    intros before Hbefore. exists now. split; [reflexivity | assumption].
Qed.

Lemma authenticate_user_outcomes_witness :
  authenticate_user monday_noon (UserLogin.Build "nobody" "demo123") monday_world
  = (Ok None, monday_world)
  /\ authenticate_user monday_noon (UserLogin.Build "demo" "wrong") monday_world
     = (Ok None, monday_world)
  /\ exists user w',
       authenticate_user monday_noon (UserLogin.Build "demo" "demo123") monday_world
       = (Ok (Some user), w')
       /\ User.id user = Some 1
       /\ User.last_login user = Some monday_noon.
Proof.
  assert (keyed (users (db monday_world))) as Hkeyed.
  { intros u [<-|[]]. discriminate. }
  split; [|split].
  - apply (authenticate_user_outcomes monday_noon
             (UserLogin.Build "nobody" "demo123") monday_world eq_refl Hkeyed).
    reflexivity.
  - eapply (authenticate_user_outcomes monday_noon
              (UserLogin.Build "demo" "wrong") monday_world eq_refl Hkeyed).
    + reflexivity.
    + vm_compute. discriminate.
  - destruct (authenticate_user_outcomes monday_noon
                (UserLogin.Build "demo" "demo123") monday_world eq_refl Hkeyed)
      as (_ & _ & _ & Hok).
    edestruct Hok as (key & user & w' & Hrun & Hkey & Hid & _ & Hlast & _).
    + reflexivity.
    + reflexivity.
    + vm_compute. reflexivity.
    + exists user, w'. split; [exact Hrun|]. split; [|exact Hlast].
      rewrite Hid. rewrite <- Hkey. reflexivity.
Defined.

(** ** Collection store *)

(** C8.  With the database up: [create_collection] returns [None] and
    leaves the world unchanged (no row is created) when the user id does
    not resolve to a stored user, and also when a photo id is given that
    does not resolve to a stored photo; when the user id resolves and the
    photo id, if given, resolves too, it appends one row to the collections
    table (under the next key, with [is_synchronized = False] and
    [submission_date] the instant read for it), returns that row, and the
    key resolves to it. *)
Theorem create_collection_checks_references
    (now : datetime) (user_id : Z) (collection_data : DataCollectionCreate.t)
    (w : World) :
  db_up w = true ->
  (~ resolves user_id (users (db w)) ->
   create_collection now user_id collection_data w = (Ok None, w))
  /\
  (forall photo_id,
     DataCollectionCreate.photo_id collection_data = Some photo_id ->
     ~ resolves photo_id (photos (db w)) ->
     create_collection now user_id collection_data w = (Ok None, w))
  /\
  (resolves user_id (users (db w)) ->
   (forall photo_id,
      DataCollectionCreate.photo_id collection_data = Some photo_id ->
      resolves photo_id (photos (db w))) ->
   let key := next_id (data_collections (db w)) in
   let collection :=
     DataCollection.Build (Some key)
       (DataCollectionCreate.customer_name collection_data)
       (DataCollectionCreate.description collection_data)
       now user_id
       (DataCollectionCreate.photo_id collection_data)
       (DataCollectionCreate.location_data collection_data)
       (DataCollectionCreate.device_info collection_data)
       false None in
   let w' := set_db (fun s => MkStore (users s) (photos s)
                                      (data_collections s ++ [collection])%list) w in
   create_collection now user_id collection_data w = (Ok (Some collection), w')
   /\ DataCollection.is_synchronized collection = false
   /\ DataCollection.submission_date collection = now
   /\ get_collection_by_id key w' = (Ok (Some collection), w')).
Proof.
  intros Hup.
  assert (forall (pid : Z) (k : M (option DataCollection.t)),
            (session_get (R := Photo.t) pid ≫= fun photo =>
               match photo with None => ret None | Some _ => k end) w
            = match List.find (has_id pid) (photos (db w)) with
              | None => (Ok None, w)
              | Some _ => k w
              end) as Hphoto.
  { intros pid k.
    erewrite bind_ok by (apply session_get_up, Hup).
    change (rows (db w)) with (photos (db w)).
    destruct (List.find (has_id pid) (photos (db w))); reflexivity. }
  assert (forall (k : M (option DataCollection.t)),
            (session_get (R := User.t) user_id ≫= fun user =>
               match user with None => ret None | Some _ => k end) w
            = match List.find (has_id user_id) (users (db w)) with
              | None => (Ok None, w)
              | Some _ => k w
              end) as Huser.
  { intros k.
    erewrite bind_ok by (apply session_get_up, Hup).
    change (rows (db w)) with (users (db w)).
    destruct (List.find (has_id user_id) (users (db w))); reflexivity. }
  split; [|split].
  - intros Hno. apply find_has_id_None in Hno.
    unfold create_collection. cbv zeta. rewrite Huser, Hno. reflexivity.
  - intros pid Hpid Hno. apply find_has_id_None in Hno.
    unfold create_collection. cbv zeta. rewrite Huser.
    destruct (List.find (has_id user_id) (users (db w))); [|reflexivity].
    rewrite Hpid, Hphoto, Hno. reflexivity.
  - intros Hu Hp key collection w'.
    destruct (commit_new_refresh
                (DataCollection.Build None
                   (DataCollectionCreate.customer_name collection_data)
                   (DataCollectionCreate.description collection_data)
                   now user_id
                   (DataCollectionCreate.photo_id collection_data)
                   (DataCollectionCreate.location_data collection_data)
                   (DataCollectionCreate.device_info collection_data)
                   false None) w Hup) as (Hrun & _ & Hget).
    split; [|repeat split; exact Hget].
    apply find_has_id_Some in Hu as (u & Hfu & _).
    unfold create_collection. cbv zeta. rewrite Huser, Hfu.
    assert (forall k : M (option DataCollection.t),
              k w = (Ok (Some collection), w') ->
              match DataCollectionCreate.photo_id collection_data with
              | Some photo_id =>
                  session_get (R := Photo.t) photo_id ≫= fun photo =>
                    match photo with None => ret None | Some _ => k end
              | None => k
              end w = (Ok (Some collection), w')) as Hthen.
    { intros k Hk.
      destruct (DataCollectionCreate.photo_id collection_data) as [pid|] eqn:Hpid;
        [|exact Hk].
      rewrite Hphoto.
      destruct (find_has_id_Some pid (photos (db w)) (Hp pid eq_refl))
        as (p & Hfp & _).
      now rewrite Hfp. }
    apply Hthen.
    unfold mbind, M_bind, bind in Hrun |- *.
    destruct (commit_new _ w) as [[r|e] w1]; [|discriminate Hrun].
    rewrite Hrun. reflexivity.
Qed.

Lemma create_collection_checks_references_witness :
  create_collection monday_noon 99999 visit_without_photo monday_world
  = (Ok None, monday_world)
  /\ create_collection monday_noon 1 visit_with_unknown_photo monday_world
     = (Ok None, monday_world)
  /\ exists collection w',
       create_collection monday_noon 1 visit_without_photo monday_world
       = (Ok (Some collection), w')
       /\ DataCollection.id collection = Some 2
       /\ DataCollection.is_synchronized collection = false
       /\ DataCollection.submission_date collection = monday_noon.
Proof.
  split; [|split].
  - apply (create_collection_checks_references monday_noon 99999
             visit_without_photo monday_world eq_refl).
    intros (u & [<-|[]] & Hu). discriminate Hu.
  - eapply (create_collection_checks_references monday_noon 1
              visit_with_unknown_photo monday_world eq_refl).
    + reflexivity.
    + intros (p & [] & _).
  - destruct (create_collection_checks_references monday_noon 1
                visit_without_photo monday_world eq_refl) as (_ & _ & Hok).
    destruct Hok as (Hrun & Hsync & Hdate & _).
    + eexists. split; [left; reflexivity | reflexivity].
    + intros pid Hpid. discriminate Hpid.
    + do 2 eexists. split; [exact Hrun|]. repeat split.
Defined.

(** ** Photo store *)

Lemma is_allowed_file_spec (filename : string) :
  is_allowed_file filename = true
  <-> Str.lower (Path.suffix filename)
      ∈ ({[ ".jpg"; ".jpeg"; ".png"; ".gif"; ".webp" ]} : gset string).
Proof. unfold is_allowed_file. apply bool_decide_eq_true. Qed.

Lemma no_suffix_not_allowed (filename : string) :
  Path.suffix filename = "" -> is_allowed_file filename = false.
Proof. intros E. unfold is_allowed_file. rewrite E. vm_compute. reflexivity. Qed.

(** C7.  [save_photo] returns [None] and leaves the world (the files, the
    directories and the three tables) exactly as it was whenever the
    original filename has no extension, or its lower-cased extension is
    not one of [.jpg .jpeg .png .gif .webp], or the content is longer than
    [MAX_FILE_SIZE], which is 10 MiB; this holds whatever the state of the
    disk and of the database. *)
Theorem save_photo_rejects
    (now_name now_row : datetime) (rnd content : list Byte.byte)
    (original_filename mime_type : string) (w : World) :
  Path.suffix original_filename = ""
  \/ Str.lower (Path.suffix original_filename)
     ∉ ({[ ".jpg"; ".jpeg"; ".png"; ".gif"; ".webp" ]} : gset string)
  \/ len content > 10 * 1024 * 1024 ->
  MAX_FILE_SIZE = 10485760
  /\ save_photo now_name now_row rnd content original_filename mime_type w
     = (Ok None, w).
Proof.
  intros H. split; [reflexivity|]. unfold save_photo.
  destruct (is_allowed_file original_filename) eqn:Hallowed; [|reflexivity].
  cbn [negb].
  destruct H as [H|[H|H]].
  - apply no_suffix_not_allowed in H. congruence.
  - apply is_allowed_file_spec in Hallowed. contradiction.
  - replace (len content >? MAX_FILE_SIZE) with true; [reflexivity|].
    symmetry. apply Z.gtb_lt. unfold MAX_FILE_SIZE. lia.
Qed.

Lemma save_photo_rejects_witness :
  save_photo monday_noon monday_noon [Byte.x2a] [Byte.x01; Byte.x02]
             "notes.txt" "text/plain" monday_world
  = (Ok None, monday_world)
  /\ save_photo monday_noon monday_noon [Byte.x2a] [Byte.x01; Byte.x02]
                "README" "text/plain" monday_world
     = (Ok None, monday_world).
Proof.
  split.
  - apply (save_photo_rejects monday_noon monday_noon [Byte.x2a]
             [Byte.x01; Byte.x02] "notes.txt" "text/plain" monday_world).
    right. left. vm_compute. intros H. discriminate H.
  - apply (save_photo_rejects monday_noon monday_noon [Byte.x2a]
             [Byte.x01; Byte.x02] "README" "text/plain" monday_world).
    left. reflexivity.
Defined.

(** The except clause: whatever is at the path is removed, the user is
    notified, [None] is returned; the tables are not touched. *)
Lemma save_photo_handler (file_path : string) (e : exn) (w : World) :
  exists w',
    (present ← path_exists file_path;
     when present (unlink file_path);;
     ui_notify ("Error saving photo: " ++ exn_str e) "negative";;
     ret (None : option Photo.t)) w = (Ok None, w')
    /\ files w' = delete file_path (files w)
    /\ db w' = db w /\ dirs w' = dirs w.
Proof.
  unfold path_exists.
  destruct (files w !! file_path) as [old|] eqn:E.
  - exists (add_notification ("Error saving photo: " ++ exn_str e, "negative")
              (set_files (delete file_path) w)).
    split; [|split; [|split]]; try reflexivity.
    erewrite bind_ok by (unfold gets; rewrite E; reflexivity).
    unfold when.
    erewrite bind_ok by reflexivity.
    erewrite bind_ok by reflexivity.
    reflexivity.
  - exists (add_notification ("Error saving photo: " ++ exn_str e, "negative") w).
    split; [|split; [|split]]; try reflexivity.
    + erewrite bind_ok by (unfold gets; rewrite E; reflexivity).
      unfold when.
      erewrite bind_ok by reflexivity.
      erewrite bind_ok by reflexivity.
      reflexivity.
    + simpl. symmetry. now apply delete_id.
Qed.

(** Past the two guards, [save_photo] is the guarded write-then-insert. *)
Lemma save_photo_accepted
    (now_name now_row : datetime) (rnd content : list Byte.byte)
    (original_filename mime_type : string) (w : World) :
  is_allowed_file original_filename = true ->
  len content <= MAX_FILE_SIZE ->
  let file_path := target_path now_name rnd original_filename in
  let photo :=
    Photo.Build None (generate_unique_filename now_name rnd original_filename)
      original_filename file_path (len content) mime_type now_row (JObj []) in
  save_photo now_name now_row rnd content original_filename mime_type w
  = try_except
      (write_bytes file_path content;;
       photo ← commit_new photo;
       photo ← refresh photo;
       ret (Some photo))
      (fun e =>
         present ← path_exists file_path;
         when present (unlink file_path);;
         ui_notify ("Error saving photo: " ++ exn_str e) "negative";;
         ret None)
      (set_dirs (fun ds => ds ∪ list_to_set (ancestors "" (Path.components UPLOAD_DIR))) w).
Proof.
  intros Hallowed Hsize file_path photo. unfold save_photo.
  rewrite Hallowed. cbn [negb].
  replace (len content >? MAX_FILE_SIZE) with false
    by (symmetry; rewrite Z.gtb_ltb; apply Z.ltb_ge, Hsize).
  reflexivity.
Qed.

(** C2.  For content, filename and MIME type that pass the two guards of
    [save_photo]: when the disk takes the write and the database is down,
    the file is first written in full at the target path, and [save_photo]
    then returns [None] in a world where nothing is at that path, every
    other file is as before, and the tables are unchanged.  More generally,
    whatever the disk and the database do, [save_photo] does not raise,
    and whenever it returns [None] nothing is left at the target path and
    the tables are unchanged. *)
Theorem save_photo_leaves_no_orphan
    (now_name now_row : datetime) (rnd content : list Byte.byte)
    (original_filename mime_type : string) (w : World) :
  is_allowed_file original_filename = true ->
  len content <= MAX_FILE_SIZE ->
  let file_path := target_path now_name rnd original_filename in
  (disk w = DiskOk -> db_up w = false ->
   (exists w1,
      (setup_upload_directory;; write_bytes file_path content) w = (Ok tt, w1)
      /\ files w1 !! file_path = Some content)
   /\ exists w',
        save_photo now_name now_row rnd content original_filename mime_type w
        = (Ok None, w')
        /\ files w' !! file_path = None
        /\ (forall p, p <> file_path -> files w' !! p = files w !! p)
        /\ db w' = db w)
  /\ exists r w',
       save_photo now_name now_row rnd content original_filename mime_type w
       = (Ok r, w')
       /\ (r = None -> files w' !! file_path = None /\ db w' = db w).
Proof.
  intros Hallowed Hsize file_path.
  pose proof (save_photo_accepted now_name now_row rnd content original_filename
                mime_type w Hallowed Hsize) as Hrun.
  cbv zeta in Hrun. fold file_path in Hrun.
  set (w0 := set_dirs _ w) in Hrun.
  set (photo := Photo.Build None _ _ _ _ _ _ _) in Hrun.
  set (handler := fun e : exn => _) in Hrun.
  assert (forall e w1, files w1 = files w0 \/ (exists c, files w1 = <[file_path:=c]> (files w0)) ->
            db w1 = db w0 ->
            exists w', handler e w1 = (Ok None, w')
                       /\ files w' !! file_path = None
                       /\ (forall p, p <> file_path -> files w' !! p = files w !! p)
                       /\ db w' = db w) as Hhandler.
  { intros e w1 Hfiles Hdb.
    destruct (save_photo_handler file_path e w1) as (w' & Hh & Hf & Hd & _).
    exists w'. split; [exact Hh|]. rewrite Hf, Hd, Hdb. repeat split.
    - apply lookup_delete_eq.
    - intros p Hp. rewrite lookup_delete_ne by congruence.
      destruct Hfiles as [->|[c ->]]; [reflexivity|].
      now rewrite lookup_insert_ne by congruence. }
  assert (db_up w = false -> disk w = DiskOk ->
          (write_bytes file_path content;;
           photo ← commit_new photo; photo ← refresh photo; ret (Some photo)) w0
          = (Raise (DatabaseError "database is not available"),
             set_files (insert file_path content) w0)) as Hdown.
  { intros Hdb Hdisk.
    erewrite bind_ok by (unfold write_bytes; simpl disk; rewrite Hdisk; reflexivity).
    erewrite bind_raise by (apply commit_new_down; exact Hdb).
    reflexivity. }
  split.
  - intros Hdisk Hdb. split.
    + exists (set_files (insert file_path content) w0). split.
      * unfold setup_upload_directory, mkdir_parents.
        erewrite bind_ok by reflexivity. fold w0.
        unfold write_bytes. simpl disk. rewrite Hdisk. reflexivity.
      * simpl. apply lookup_insert_eq.
    + rewrite Hrun. unfold try_except. rewrite (Hdown Hdb Hdisk).
      apply Hhandler; [right; eexists; reflexivity | reflexivity].
  - rewrite Hrun. unfold try_except.
    destruct (disk w) eqn:Hdisk.
    + destruct (db_up w) eqn:Hdb.
      * destruct (commit_new_refresh photo (set_files (insert file_path content) w0) Hdb)
          as (Hins & _).
        erewrite bind_ok by (unfold write_bytes; simpl disk; rewrite Hdisk; reflexivity).
        unfold mbind, M_bind, bind in Hins |- *.
        destruct (commit_new photo _) as [[r|e] w1]; [|discriminate Hins].
        rewrite Hins. do 2 eexists. split; [reflexivity|]. discriminate.
      * rewrite (Hdown eq_refl eq_refl).
        destruct (Hhandler (DatabaseError "database is not available")
                    (set_files (insert file_path content) w0))
          as (w' & Hh & Hf & _ & Hd);
          [right; eexists; reflexivity | reflexivity |].
        exists None, w'. auto.
    + erewrite bind_raise by (unfold write_bytes; simpl disk; rewrite Hdisk; reflexivity).
      destruct (Hhandler (OSError "Permission denied") w0)
        as (w' & Hh & Hf & _ & Hd); [left; reflexivity | reflexivity |].
      exists None, w'. auto.
    + erewrite bind_raise by (unfold write_bytes; simpl disk; rewrite Hdisk; reflexivity).
      destruct (Hhandler (OSError "No space left on device")
                  (set_files (insert file_path (List.firstn n content)) w0))
        as (w' & Hh & Hf & _ & Hd); [right; eexists; reflexivity | reflexivity |].
      exists None, w'. auto.
Qed.

Lemma save_photo_leaves_no_orphan_witness :
  exists w',
    save_photo monday_noon monday_noon [Byte.x2a] [Byte.x01; Byte.x02]
               "test.JPG" "image/jpeg" monday_world_db_down
    = (Ok None, w')
    /\ files w' !! "uploads/photos/20240101_120000_2a.jpg" = None
    /\ db w' = db monday_world_db_down.
Proof.
  destruct (save_photo_leaves_no_orphan monday_noon monday_noon [Byte.x2a]
              [Byte.x01; Byte.x02] "test.JPG" "image/jpeg" monday_world_db_down)
    as [Hdown _].
  - vm_compute. reflexivity.
  - vm_compute. discriminate.
  - destruct Hdown as (_ & w' & Hrun & Hgone & _ & Hdb);
      [reflexivity | reflexivity |].
    exists w'. split; [exact Hrun|]. split; [exact Hgone | exact Hdb].
Defined.

(** * Further properties of the service layer *)

(** ** Characters and pieces of strings *)

Lemma string_app_cons (c : ascii) (s t : string) :
  (String c s ++ t)%string = String c (s ++ t).
Proof. reflexivity. Qed.

Lemma string_app_nil_l (t : string) : ("" ++ t)%string = t.
Proof. reflexivity. Qed.

Lemma string_app_nil_r (s : string) : (s ++ "")%string = s.
Proof.
  induction s as [|c s IH]; [reflexivity|]. now rewrite string_app_cons, IH.
Qed.

Lemma string_app_assoc (a b c : string) :
  ((a ++ b) ++ c)%string = (a ++ (b ++ c))%string.
Proof.
  induction a as [|x a IH]; [reflexivity|]. now rewrite !string_app_cons, IH.
Qed.

Lemma string_app_inv_head (a b c : string) :
  (a ++ b)%string = (a ++ c)%string -> b = c.
Proof.
  induction a as [|x a IH]; [auto|].
  rewrite !string_app_cons. intros E. injection E as E. auto.
Qed.

Lemma string_app_inv_tail (a b t : string) :
  (a ++ t)%string = (b ++ t)%string -> a = b.
Proof.
  revert b. induction a as [|x a IH]; intros [|y b] E;
    rewrite ?string_app_cons, ?string_app_nil_l in E.
  - reflexivity.
  - exfalso. apply (f_equal String.length) in E.
    simpl in E. rewrite string_length_app in E. lia.
  - exfalso. apply (f_equal String.length) in E.
    simpl in E. rewrite string_length_app in E. lia.
  - injection E as -> E. f_equal. now apply IH.
Qed.

Lemma string_eqb_length (a b : string) :
  String.length a <> String.length b -> String.eqb a b = false.
Proof.
  intros H. destruct (String.eqb_spec a b) as [->|]; [contradiction|reflexivity].
Qed.

Lemma hex_digit_avoids (c : ascii) (n : Z) :
  ~ In c Str.hex_chars -> Ascii.eqb (Str.hex_digit n) c = false.
Proof.
  intros H. destruct (Ascii.eqb_spec (Str.hex_digit n) c) as [<-|]; [|reflexivity].
  exfalso. apply H, hex_digit_In.
Qed.

Lemma zero_padded_avoids (c : ascii) (width : nat) (n : Z) :
  ~ In c Str.hex_chars -> Str.contains c (Str.zero_padded width n) = false.
Proof.
  intros H. revert n. induction width as [|w IH]; intros n; [reflexivity|].
  cbn [Str.zero_padded]. rewrite contains_app, IH. cbn [Str.contains orb].
  now rewrite hex_digit_avoids.
Qed.

Lemma zero_padded_length (width : nat) (n : Z) :
  String.length (Str.zero_padded width n) = width.
Proof.
  revert n. induction width as [|w IH]; intros n; [reflexivity|].
  cbn [Str.zero_padded]. rewrite string_length_app, IH. simpl. lia.
Qed.

Lemma token_hex_avoids (c : ascii) (rnd : list Byte.byte) :
  ~ In c Str.hex_chars -> Str.contains c (token_hex rnd) = false.
Proof.
  intros H. induction rnd as [|b r IH]; [reflexivity|].
  cbn [token_hex Str.contains]. now rewrite !hex_digit_avoids.
Qed.

Lemma strftime_compact_avoids (c : ascii) (now : datetime) :
  ~ In c Str.hex_chars -> c <> "_"%char ->
  Str.contains c (strftime_compact now) = false.
Proof.
  intros H Hu. unfold strftime_compact.
  rewrite !contains_app, !zero_padded_avoids by exact H.
  cbn [Str.contains orb].
  destruct (Ascii.eqb_spec "_"%char c) as [E|]; [congruence|reflexivity].
Qed.

Lemma strftime_compact_length (now : datetime) :
  String.length (strftime_compact now) = 15%nat.
Proof.
  unfold strftime_compact. rewrite !string_length_app, !zero_padded_length.
  reflexivity.
Qed.

Lemma slash_not_hex : ~ In Path.slash Str.hex_chars.
Proof. simpl. intros H. repeat (destruct H as [H|H]; [discriminate H|]). exact H. Qed.

Lemma dot_not_hex : ~ In Path.dot Str.hex_chars.
Proof. simpl. intros H. repeat (destruct H as [H|H]; [discriminate H|]). exact H. Qed.

(** Lower-casing turns no character into a slash or a dot, and leaves
    those two alone. *)
Lemma lower_char_slash (x : ascii) :
  Ascii.eqb (Str.lower_char x) Path.slash = Ascii.eqb x Path.slash.
Proof. destruct x as [[] [] [] [] [] [] [] []]; reflexivity. Qed.

Lemma lower_char_dot (x : ascii) :
  Ascii.eqb (Str.lower_char x) Path.dot = Ascii.eqb x Path.dot.
Proof. destruct x as [[] [] [] [] [] [] [] []]; reflexivity. Qed.

Lemma lower_char_idem (x : ascii) :
  Str.lower_char (Str.lower_char x) = Str.lower_char x.
Proof. destruct x as [[] [] [] [] [] [] [] []]; reflexivity. Qed.

Lemma lower_idem (s : string) : Str.lower (Str.lower s) = Str.lower s.
Proof.
  induction s as [|c s IH]; simpl; [reflexivity|].
  now rewrite lower_char_idem, IH.
Qed.

Lemma lower_length (s : string) : String.length (Str.lower s) = String.length s.
Proof. induction s as [|c s IH]; simpl; congruence. Qed.

Lemma contains_lower_slash (s : string) :
  Str.contains Path.slash (Str.lower s) = Str.contains Path.slash s.
Proof.
  induction s as [|c s IH]; simpl; [reflexivity|].
  now rewrite lower_char_slash, IH.
Qed.

Lemma contains_lower_dot (s : string) :
  Str.contains Path.dot (Str.lower s) = Str.contains Path.dot s.
Proof.
  induction s as [|c s IH]; simpl; [reflexivity|].
  now rewrite lower_char_dot, IH.
Qed.

(** No piece of a split holds the separator. *)
Lemma split_pieces_avoid (sep : ascii) (s x : string) :
  In x (Str.split sep s) -> Str.contains sep x = false.
Proof.
  revert x. induction s as [|c s IH]; simpl; intros x.
  - intros [<-|[]]. reflexivity.
  - destruct (Ascii.eqb c sep) eqn:E.
    + intros [<-|H]; [reflexivity | now apply IH].
    + destruct (Str.split sep s) as [|h t] eqn:Es.
      * intros [<-|[]]. simpl. now rewrite E.
      * intros [<-|H].
        -- simpl. rewrite E. apply IH. now left.
        -- apply IH. now right.
Qed.

Lemma last_In_or_default {A} (l : list A) (d : A) :
  List.last l d = d \/ In (List.last l d) l.
Proof.
  induction l as [|x l IH]; [now left|].
  destruct l as [|y l]; [right; now left|].
  destruct IH as [IH|IH]; [left | right; right]; exact IH.
Qed.

Lemma name_avoids_slash (p : string) :
  Str.contains Path.slash (Path.name p) = false.
Proof.
  unfold Path.name.
  destruct (last_In_or_default (Path.components p) "") as [->|H]; [reflexivity|].
  unfold Path.components in H. apply filter_In in H as [H _].
  now apply split_pieces_avoid in H.
Qed.

Lemma substring_contains (c : ascii) (s : string) (n m : nat) :
  Str.contains c s = false -> Str.contains c (String.substring n m s) = false.
Proof.
  revert n m. induction s as [|x s IH]; intros n m H.
  - destruct n, m; reflexivity.
  - simpl in H. destruct (Ascii.eqb x c) eqn:E; [discriminate|].
    destruct n as [|n]; simpl.
    + destruct m as [|m]; [reflexivity|]. simpl. rewrite E. now apply IH.
    + now apply IH.
Qed.

Lemma suffix_avoids_slash (p : string) :
  Str.contains Path.slash (Path.suffix p) = false.
Proof.
  unfold Path.suffix. cbv zeta.
  destruct (_ && _); [|reflexivity].
  unfold Str.drop. apply substring_contains, name_avoids_slash.
Qed.

(** ** The last dot of a name *)

Lemma rfind_absent (c : ascii) (s : string) :
  Str.contains c s = false -> Str.rfind c s = -1.
Proof.
  induction s as [|d s IH]; simpl; [reflexivity|].
  destruct (Ascii.eqb d c); [discriminate|].
  intros H. now rewrite (IH H).
Qed.

Lemma rfind_lower_bound (c : ascii) (s : string) : -1 <= Str.rfind c s.
Proof.
  induction s as [|d s IH]; simpl; [lia|].
  destruct (0 <=? Str.rfind c s) eqn:E; [apply Z.leb_le in E; lia|].
  destruct (Ascii.eqb d c); lia.
Qed.

(** The last occurrence is where the string ends with the character
    followed by a piece that has none. *)
Lemma rfind_last (c : ascii) (a b : string) :
  Str.contains c b = false ->
  Str.rfind c (a ++ String c b) = Z.of_nat (String.length a).
Proof.
  intros Hb. induction a as [|d a IH].
  - rewrite string_app_nil_l. simpl. rewrite (rfind_absent c b Hb). simpl.
    now rewrite Ascii.eqb_refl.
  - rewrite string_app_cons. cbn [Str.rfind String.length]. cbv zeta. rewrite IH.
    replace (0 <=? Z.of_nat (String.length a)) with true
      by (symmetry; apply Z.leb_le; lia).
    lia.
Qed.

Lemma rfind_found (c : ascii) (s : string) :
  0 <= Str.rfind c s ->
  exists a b, s = (a ++ String c b)%string /\ Str.contains c b = false
              /\ Str.rfind c s = Z.of_nat (String.length a).
Proof.
  induction s as [|d s IH]; simpl; [lia|].
  destruct (0 <=? Str.rfind c s) eqn:E.
  - intros _. apply Z.leb_le in E. destruct (IH E) as (a & b & -> & Hb & Hr).
    exists (String d a), b. rewrite string_app_cons. repeat split; auto.
    rewrite Hr. simpl String.length. lia.
  - apply Z.leb_gt in E. pose proof (rfind_lower_bound c s) as L.
    assert (Str.rfind c s = -1) as Hnone by lia.
    destruct (Ascii.eqb_spec d c) as [->|]; [|lia].
    intros _. exists "", s. rewrite string_app_nil_l. repeat split.
    clear -Hnone. induction s as [|x s IH]; [reflexivity|].
    simpl in *. destruct (0 <=? Str.rfind c s) eqn:E.
    + apply Z.leb_le in E. lia.
    + destruct (Ascii.eqb x c); [lia|]. apply IH.
      apply Z.leb_gt in E. pose proof (rfind_lower_bound c s). lia.
Qed.

Lemma substring_whole (s : string) : String.substring 0 (String.length s) s = s.
Proof. induction s as [|c s IH]; simpl; [reflexivity | now rewrite IH]. Qed.

Lemma drop_prefix (a t : string) :
  Str.drop (Z.of_nat (String.length a)) (a ++ t) = t.
Proof.
  unfold Str.drop. rewrite Nat2Z.id, string_length_app.
  replace (String.length a + String.length t - String.length a)%nat
    with (String.length t) by lia.
  induction a as [|c a IH].
  - rewrite string_app_nil_l. apply substring_whole.
  - rewrite string_app_cons. simpl. exact IH.
Qed.

(** A name without slash whose last dot is neither first nor last has the
    part from that dot as its suffix. *)
Lemma suffix_of_stem_ext (stem ext : string) :
  stem <> "" -> ext <> "" ->
  Str.contains Path.slash stem = false -> Str.contains Path.slash ext = false ->
  Str.contains Path.dot ext = false ->
  Path.suffix (stem ++ String Path.dot ext) = String Path.dot ext.
Proof.
  intros Hstem Hext Hs1 Hs2 Hd.
  set (g := (stem ++ String Path.dot ext)%string).
  assert (String.length g = (String.length stem + S (String.length ext))%nat) as Hlen
      by (unfold g; now rewrite string_length_app).
  assert (0 < String.length stem)%nat as Hl1 by (destruct stem; simpl; [congruence|lia]).
  assert (0 < String.length ext)%nat as Hl2 by (destruct ext; simpl; [congruence|lia]).
  assert (Path.name g = g) as Hname.
  { unfold Path.name, Path.components.
    rewrite split_without_sep.
    2:{ unfold g. rewrite contains_app. cbn [Str.contains]. now rewrite Hs1, Hs2. }
    cbn [List.filter].
    rewrite (string_eqb_length g "") by (simpl; lia).
    rewrite (string_eqb_length g ".") by (simpl; lia).
    reflexivity. }
  assert (Str.rfind Path.dot g = Z.of_nat (String.length stem)) as Hr
      by (unfold g; now apply rfind_last).
  unfold Path.suffix. cbv zeta. rewrite Hname, Hr.
  replace (0 <? Z.of_nat (String.length stem)) with true
    by (symmetry; apply Z.ltb_lt; lia).
  replace (Z.of_nat (String.length stem) <? Z.of_nat (String.length g) - 1) with true
    by (symmetry; apply Z.ltb_lt; lia).
  cbn [andb]. unfold g. apply drop_prefix.
Qed.

(** A character absent from a string is absent from its pieces. *)
Lemma split_pieces_keep_absent (c sep : ascii) (s x : string) :
  Str.contains c s = false -> In x (Str.split sep s) -> Str.contains c x = false.
Proof.
  revert x. induction s as [|d s IH]; intros x Hc; simpl.
  - intros [<-|[]]. reflexivity.
  - simpl in Hc. destruct (Ascii.eqb d c) eqn:Ec; [discriminate|].
    destruct (Ascii.eqb d sep).
    + intros [<-|H]; [reflexivity | now apply IH].
    + destruct (Str.split sep s) as [|h t] eqn:Es.
      * intros [<-|[]]. simpl. now rewrite Ec.
      * intros [<-|H].
        -- simpl. rewrite Ec. apply IH; [exact Hc | now left].
        -- apply IH; [exact Hc | now right].
Qed.

Lemma suffix_of_plain (s : string) :
  Str.contains Path.dot s = false -> Path.suffix s = "".
Proof.
  intros Hd. unfold Path.suffix. cbv zeta.
  assert (Str.contains Path.dot (Path.name s) = false) as Hn.
  { unfold Path.name.
    destruct (last_In_or_default (Path.components s) "") as [->|H]; [reflexivity|].
    unfold Path.components in H. apply filter_In in H as [H _].
    eapply split_pieces_keep_absent; eassumption. }
  rewrite (rfind_absent _ _ Hn). reflexivity.
Qed.

(** The suffix of any path is empty, or a dot followed by a non-empty
    piece without dot or slash. *)
Lemma suffix_shape (p : string) :
  Path.suffix p = ""
  \/ exists ext, Path.suffix p = String Path.dot ext /\ ext <> ""
                 /\ Str.contains Path.dot ext = false
                 /\ Str.contains Path.slash ext = false.
Proof.
  pose proof (suffix_avoids_slash p) as Hslash.
  unfold Path.suffix in *. cbv zeta in *.
  destruct ((0 <? Str.rfind Path.dot (Path.name p))
            && (Str.rfind Path.dot (Path.name p)
                <? Z.of_nat (String.length (Path.name p)) - 1)) eqn:E;
    [|now left].
  right. apply andb_prop in E as [E1 E2].
  apply Z.ltb_lt in E1, E2.
  destruct (rfind_found Path.dot (Path.name p)) as (a & b & Hn & Hb & Hr); [lia|].
  rewrite Hr in Hslash, E2 |- *. rewrite Hn in Hslash, E2 |- *.
  rewrite drop_prefix in Hslash |- *. exists b.
  split; [reflexivity|]. split; [|split; [exact Hb | exact Hslash]].
  intros ->. rewrite string_length_app in E2. simpl in E2. lia.
Qed.

(** ** Generated file names *)

Lemma generate_unique_filename_split
    (now : datetime) (rnd : list Byte.byte) (original_filename : string) :
  generate_unique_filename now rnd original_filename
  = ((strftime_compact now ++ String "_" (token_hex rnd))
       ++ Str.lower (Path.suffix original_filename))%string.
Proof.
  unfold generate_unique_filename. cbv zeta.
  rewrite string_app_assoc. reflexivity.
Qed.

Lemma generated_stem_facts (now : datetime) (rnd : list Byte.byte) :
  let stem := (strftime_compact now ++ String "_" (token_hex rnd))%string in
  stem <> "" /\ (16 <= String.length stem)%nat
  /\ Str.contains Path.slash stem = false
  /\ Str.contains Path.dot stem = false.
Proof.
  intros stem.
  assert (16 <= String.length stem)%nat as Hlen.
  { unfold stem. rewrite string_length_app, strftime_compact_length. simpl. lia. }
  split; [intros E; rewrite E in Hlen; simpl in Hlen; lia|].
  split; [exact Hlen|]. unfold stem. split.
  - rewrite contains_app, strftime_compact_avoids by (apply slash_not_hex || discriminate).
    cbn [Str.contains orb]. rewrite token_hex_avoids by apply slash_not_hex.
    reflexivity.
  - rewrite contains_app, strftime_compact_avoids by (apply dot_not_hex || discriminate).
    cbn [Str.contains orb]. rewrite token_hex_avoids by apply dot_not_hex.
    reflexivity.
Qed.

(** X1.  Whatever the original filename (slashes, [..], several dots), the
    generated filename holds no slash, so the target path has exactly the
    parts [uploads], [photos] and the generated filename: the file is
    written directly inside the upload directory. *)
Theorem generated_filename_stays_in_upload_dir
    (now : datetime) (rnd : list Byte.byte) (original_filename : string) :
  let filename := generate_unique_filename now rnd original_filename in
  Str.contains Path.slash filename = false
  /\ Path.components (target_path now rnd original_filename)
     = ["uploads"; "photos"; filename]
  /\ Path.name (target_path now rnd original_filename) = filename.
Proof.
  intros filename.
  destruct (generated_stem_facts now rnd) as (_ & Hlen & Hslash & _).
  assert (Str.contains Path.slash filename = false) as Hno.
  { unfold filename. rewrite generate_unique_filename_split, contains_app, Hslash.
    rewrite contains_lower_slash. apply suffix_avoids_slash. }
  assert (16 <= String.length filename)%nat as Hlong.
  { unfold filename. rewrite generate_unique_filename_split, string_length_app. lia. }
  assert (Path.components (target_path now rnd original_filename)
          = ["uploads"; "photos"; filename]) as Hparts.
  { unfold Path.components, target_path, Path.join. fold filename.
    change (UPLOAD_DIR ++ String Path.slash filename)%string
      with ("uploads" ++ String Path.slash ("photos" ++ String Path.slash filename))%string.
    rewrite split_at_first_sep by reflexivity.
    rewrite split_at_first_sep by reflexivity.
    rewrite split_without_sep by exact Hno.
    cbn [List.filter]. 
    change (String.eqb "uploads" "" || String.eqb "uploads" ".") with false.
    change (String.eqb "photos" "" || String.eqb "photos" ".") with false.
    rewrite (string_eqb_length filename "") by (simpl; lia).
    rewrite (string_eqb_length filename ".") by (simpl; lia).
    reflexivity. }
  split; [exact Hno|]. split; [exact Hparts|].
  unfold Path.name. rewrite Hparts. reflexivity.
Qed.

(** X2.  The generated filename carries the original's extension in lower
    case, and nothing else of it: its suffix is the lower-cased suffix of
    the original filename, and it is an allowed file exactly when the
    original is. *)
Theorem generated_filename_keeps_extension
    (now : datetime) (rnd : list Byte.byte) (original_filename : string) :
  let filename := generate_unique_filename now rnd original_filename in
  Path.suffix filename = Str.lower (Path.suffix original_filename)
  /\ is_allowed_file filename = is_allowed_file original_filename.
Proof.
  intros filename.
  destruct (generated_stem_facts now rnd) as (Hne & _ & Hslash & Hdot).
  assert (Path.suffix filename = Str.lower (Path.suffix original_filename)) as Hs.
  { unfold filename. rewrite generate_unique_filename_split.
    destruct (suffix_shape original_filename) as [->|(ext & -> & Hext & Hd & Hsl)].
    - cbn [Str.lower]. rewrite string_app_nil_r. now apply suffix_of_plain.
    - cbn [Str.lower].
      change (Str.lower_char Path.dot) with Path.dot.
      apply suffix_of_stem_ext; auto.
      + intros E. apply (f_equal String.length) in E.
        rewrite lower_length in E. destruct ext; [congruence|discriminate E].
      + now rewrite contains_lower_slash.
      + now rewrite contains_lower_dot. }
  split; [exact Hs|].
  unfold is_allowed_file. now rewrite Hs, lower_idem.
Qed.

(** X3.  For the same instant and original filename, two different draws
    of the random source give two different filenames. *)
Theorem generated_filename_distinct_tokens
    (now : datetime) (rnd1 rnd2 : list Byte.byte) (original_filename : string) :
  rnd1 <> rnd2 ->
  generate_unique_filename now rnd1 original_filename
  <> generate_unique_filename now rnd2 original_filename.
Proof.
  intros Hne E. apply Hne.
  rewrite !generate_unique_filename_split in E.
  apply string_app_inv_tail, string_app_inv_head in E.
  injection E as E. now apply token_hex_inj.
Qed.

Lemma generated_filename_distinct_tokens_witness :
  generate_unique_filename monday_noon [Byte.x2a] "photo.JPG"
  <> generate_unique_filename monday_noon [Byte.x2b] "photo.JPG".
Proof.
  apply (generated_filename_distinct_tokens monday_noon [Byte.x2a] [Byte.x2b]
           "photo.JPG").
  discriminate.
Defined.

(** X4.  For a name made of a non-empty stem without slash (dots are
    fine), a dot, and a non-empty extension without dot or slash,
    [is_allowed_file] holds exactly when the extension is, up to the case
    of its letters, one of [jpg], [jpeg], [png], [gif], [webp]; a name
    with no dot at all is never allowed. *)
Theorem is_allowed_file_by_extension (stem ext plain : string) :
  stem <> "" -> ext <> "" ->
  Str.contains Path.slash stem = false ->
  Str.contains Path.slash ext = false -> Str.contains Path.dot ext = false ->
  Str.contains Path.dot plain = false ->
  (is_allowed_file (stem ++ String Path.dot ext) = true
   <-> In (Str.lower ext) ["jpg"; "jpeg"; "png"; "gif"; "webp"])
  /\ is_allowed_file plain = false.
Proof.
  intros Hstem Hext Hs1 Hs2 Hd Hplain. split.
  - rewrite is_allowed_file_spec, suffix_of_stem_ext by assumption.
    cbn [Str.lower]. change (Str.lower_char Path.dot) with Path.dot.
    rewrite !elem_of_union, !elem_of_singleton. simpl In.
    split.
    + intros [[[[H|H]|H]|H]|H]; injection H as H; rewrite H; tauto.
    + intros [H|[H|[H|[H|[H|[]]]]]]; rewrite <- H; tauto.
  - apply no_suffix_not_allowed, suffix_of_plain, Hplain.
Qed.

Lemma is_allowed_file_by_extension_witness :
  (is_allowed_file "site.visit.JPeG" = true
   <-> In (Str.lower "JPeG") ["jpg"; "jpeg"; "png"; "gif"; "webp"])
  /\ is_allowed_file "README" = false.
Proof.
  apply (is_allowed_file_by_extension "site.visit" "JPeG" "README");
    solve [discriminate | reflexivity].
Defined.

(** ** Format of the stored hash *)

Lemma token_hex_length (rnd : list Byte.byte) :
  String.length (token_hex rnd) = (2 * List.length rnd)%nat.
Proof. induction rnd as [|b r IH]; simpl; [reflexivity | rewrite IH; lia]. Qed.

(** X5.  The encoded value is the salt (two hexadecimal characters per
    drawn byte), one ['$'], and the 64 characters of the digest: it splits
    into exactly two pieces, and with the 16 bytes the code draws it is 97
    characters long, within the 255 the [password_hash] column allows. *)
Theorem hash_password_format (rnd : list Byte.byte) (password : string) :
  List.length (Str.split dollar (hash_password rnd password)) = 2%nat
  /\ String.length (hash_password rnd password) = (2 * List.length rnd + 65)%nat
  /\ (List.length rnd = 16%nat ->
      String.length (hash_password rnd password) = 97%nat
      /\ (String.length (hash_password rnd password) <= 255)%nat).
Proof.
  assert (String.length (hash_password rnd password)
          = (2 * List.length rnd + 65)%nat) as Hlen.
  { unfold hash_password. cbv zeta.
    rewrite string_length_app. cbn [String.length].
    rewrite token_hex_length, hexdigest_length. lia. }
  split; [now rewrite hash_password_split|]. split; [exact Hlen|].
  intros H16. rewrite Hlen, H16. split; [reflexivity | lia].
Qed.

Lemma hash_password_format_witness :
  String.length
    (hash_password (List.repeat Byte.x5a 16) "demo123") = 97%nat.
Proof.
  apply (hash_password_format (List.repeat Byte.x5a 16) "demo123").
  reflexivity.
Defined.

(** ** Saving a photo *)

(** X6.  For content, filename and MIME type that pass the two guards,
    with the disk taking the write and the database up, [save_photo]
    returns a photo row stored under the next key whose [file_size] is the
    length of the content and whose [file_path] is the target path; the
    file at that path holds exactly the content, every other file is as
    before, the row is what [get_photo_by_id] returns for its key, the
    photos table grew by that one row and the other tables are unchanged. *)
Theorem save_photo_stores_file_and_row
    (now_name now_row : datetime) (rnd content : list Byte.byte)
    (original_filename mime_type : string) (w : World) :
  is_allowed_file original_filename = true ->
  len content <= MAX_FILE_SIZE ->
  disk w = DiskOk -> db_up w = true ->
  let key := next_id (photos (db w)) in
  exists (photo : Photo.t) (w' : World),
    save_photo now_name now_row rnd content original_filename mime_type w
    = (Ok (Some photo), w')
    /\ Photo.id photo = Some key
    /\ Photo.file_size photo = len content
    /\ Photo.original_filename photo = original_filename
    /\ Photo.mime_type photo = mime_type
    /\ Photo.file_path photo = target_path now_name rnd original_filename
    /\ files w' !! Photo.file_path photo = Some content
    /\ (forall p, p <> Photo.file_path photo -> files w' !! p = files w !! p)
    /\ get_photo_by_id key w' = (Ok (Some photo), w')
    /\ photos (db w') = (photos (db w) ++ [photo])%list
    /\ users (db w') = users (db w)
    /\ data_collections (db w') = data_collections (db w).
Proof.
  intros Hallowed Hsize Hdisk Hup key.
  pose proof (save_photo_accepted now_name now_row rnd content original_filename
                mime_type w Hallowed Hsize) as Hrun.
  cbv zeta in Hrun.
  set (file_path := target_path now_name rnd original_filename) in *.
  set (w0 := set_dirs _ w) in Hrun.
  set (photo := Photo.Build None _ _ _ _ _ _ _) in Hrun.
  set (w1 := set_files (insert file_path content) w0).
  destruct (commit_new_refresh photo w1 Hup) as (Hins & Hrows & Hget).
  cbv zeta in Hins, Hrows, Hget.
  change (rows (db w1)) with (photos (db w)) in Hins, Hrows, Hget.
  fold key in Hins, Hrows, Hget.
  set (stored := with_id (Some key) photo) in *.
  set (w' := set_db (set_rows (photos (db w) ++ [stored])%list) w1) in *.
  exists stored, w'. split.
  { rewrite Hrun. unfold try_except.
    erewrite bind_ok by (unfold write_bytes; simpl disk; rewrite Hdisk; reflexivity).
    fold w1. unfold mbind, M_bind, bind in Hins |- *.
    destruct (commit_new photo w1) as [[r|e] w2]; [|discriminate Hins].
    rewrite Hins. reflexivity. }
  repeat match goal with |- _ /\ _ => split end; try reflexivity.
  - simpl. apply lookup_insert_eq.
  - intros p Hp. simpl. apply lookup_insert_ne. simpl in Hp. congruence.
  - exact Hget.
Qed.

Lemma save_photo_stores_file_and_row_witness :
  exists (photo : Photo.t) (w' : World),
    save_photo monday_noon monday_noon [Byte.x2a] [Byte.x01; Byte.x02]
               "test.JPG" "image/jpeg" monday_world
    = (Ok (Some photo), w')
    /\ Photo.id photo = Some 1
    /\ Photo.file_size photo = 2
    /\ files w' !! "uploads/photos/20240101_120000_2a.jpg"
       = Some [Byte.x01; Byte.x02].
Proof.
  destruct (save_photo_stores_file_and_row monday_noon monday_noon [Byte.x2a]
              [Byte.x01; Byte.x02] "test.JPG" "image/jpeg" monday_world)
    as (photo & w' & Hrun & Hid & Hsize & _ & _ & Hpath & Hfile & _).
  - vm_compute. reflexivity.
  - vm_compute. discriminate.
  - reflexivity.
  - reflexivity.
  - exists photo, w'. split; [exact Hrun|]. split; [exact Hid|].
    split; [exact Hsize|]. rewrite Hpath in Hfile. exact Hfile.
Defined.

(** ** What each service call does to the world, case by case *)

Lemma select_first_down {R} `{Table R} (p : R -> bool) (w : World) :
  db_up w = false ->
  select_first p w = (Raise (DatabaseError "database is not available"), w).
Proof.
  intros Hdown. unfold select_first.
  now erewrite bind_raise by (apply statement_down, Hdown).
Qed.

Lemma session_get_down {R} `{Table R} (i : Z) (w : World) :
  db_up w = false ->
  session_get i w = (Raise (DatabaseError "database is not available"), w).
Proof.
  intros Hdown. unfold session_get.
  now erewrite bind_raise by (apply statement_down, Hdown).
Qed.

(** The row [create_user] stores. *)
Lemma create_user_run
    (now : datetime) (rnd : list Byte.byte) (user_create : UserCreate.t)
    (w : World) :
  db_up w = true ->
  let user :=
    User.Build (Some (next_id (users (db w))))
      (UserCreate.username user_create)
      (hash_password rnd (UserCreate.password user_create))
      (UserCreate.full_name user_create)
      (UserCreate.email user_create)
      true now None in
  create_user now rnd user_create w
  = match List.find (has_username (UserCreate.username user_create))
                    (users (db w)) with
    | Some _ => (Ok None, w)
    | None =>
        (Ok (Some user),
         set_db (fun s => MkStore (users s ++ [user])%list (photos s)
                                  (data_collections s)) w)
    end.
Proof.
  intros Hup user. unfold create_user.
  erewrite bind_ok by (rewrite select_first_up by exact Hup; reflexivity).
  change (rows (db w)) with (users (db w)).
  destruct (List.find _ (users (db w))); [reflexivity|].
  destruct (commit_new_refresh
              (User.Build None
                 (UserCreate.username user_create)
                 (hash_password rnd (UserCreate.password user_create))
                 (UserCreate.full_name user_create)
                 (UserCreate.email user_create)
                 true now None) w Hup) as (Hrun & _).
  unfold mbind, M_bind, bind in Hrun |- *.
  destruct (commit_new _ w) as [[r|e] w1]; [|discriminate Hrun].
  rewrite Hrun. reflexivity.
Qed.

Lemma create_user_down
    (now : datetime) (rnd : list Byte.byte) (user_create : UserCreate.t)
    (w : World) :
  db_up w = false ->
  create_user now rnd user_create w
  = (Raise (DatabaseError "database is not available"), w).
Proof.
  intros Hdown. unfold create_user.
  now erewrite bind_raise by (apply select_first_down, Hdown).
Qed.

(** The outcome of [authenticate_user] on a store whose users carry keys. *)
Lemma authenticate_user_run
    (now : datetime) (login_data : UserLogin.t) (w : World) :
  db_up w = true -> keyed (users (db w)) ->
  authenticate_user now login_data w
  = match List.find (has_username (UserLogin.username login_data))
                    (users (db w)) with
    | None => (Ok None, w)
    | Some u =>
        if User.is_active u then
          match verify_password (UserLogin.password login_data)
                                (User.password_hash u) with
          | Ok true =>
              let user := User.set_last_login (Some now) u in
              (Ok (Some user),
               set_db (fun s =>
                 MkStore
                   (List.map (fun r => if has_id (default 0 (User.id u)) r
                                       then user else r) (users s))
                   (photos s) (data_collections s)) w)
          | _ => (Ok None, w)
          end
        else (Ok None, w)
    end.
Proof.
  intros Hup Hkeyed. unfold authenticate_user.
  erewrite bind_ok by (rewrite select_first_up by exact Hup; reflexivity).
  change (rows (db w)) with (users (db w)).
  destruct (List.find _ (users (db w))) as [u|] eqn:E; [|reflexivity].
  destruct (User.is_active u); [|reflexivity]. cbn [negb].
  destruct (verify_password_total (UserLogin.password login_data)
                                  (User.password_hash u)) as [b Hb].
  erewrite bind_ok by (unfold lift; rewrite Hb; reflexivity).
  rewrite Hb. destruct b; [|reflexivity]. cbn [negb].
  assert (In u (users (db w))) as Hin by (apply List.find_some in E; tauto).
  destruct (User.id u) as [key|] eqn:Hkey; [|exfalso; now apply (Hkeyed u Hin)].
  cbv zeta. cbn [default from_option].
  set (user := User.set_last_login (Some now) u).
  assert (row_id user = Some key) as Hkey' by exact Hkey.
  assert (resolves key (users (db w))) as Hres by (exists u; auto).
  destruct (commit_changed_refresh key user w Hup Hkey' Hres) as [Hcommit _].
  unfold mbind, M_bind, bind in Hcommit |- *.
  destruct (commit_changed user w) as [[[]|e] w1]; [|discriminate Hcommit].
  rewrite Hcommit. reflexivity.
Qed.

Lemma authenticate_user_down
    (now : datetime) (login_data : UserLogin.t) (w : World) :
  db_up w = false ->
  authenticate_user now login_data w
  = (Raise (DatabaseError "database is not available"), w).
Proof.
  intros Hdown. unfold authenticate_user.
  now erewrite bind_raise by (apply select_first_down, Hdown).
Qed.

(** The outcome of [create_collection]. *)
Lemma create_collection_run
    (now : datetime) (user_id : Z) (collection_data : DataCollectionCreate.t)
    (w : World) :
  db_up w = true ->
  let collection :=
    DataCollection.Build (Some (next_id (data_collections (db w))))
      (DataCollectionCreate.customer_name collection_data)
      (DataCollectionCreate.description collection_data)
      now user_id
      (DataCollectionCreate.photo_id collection_data)
      (DataCollectionCreate.location_data collection_data)
      (DataCollectionCreate.device_info collection_data)
      false None in
  let stored :=
    (Ok (Some collection),
     set_db (fun s => MkStore (users s) (photos s)
                              (data_collections s ++ [collection])%list) w) in
  create_collection now user_id collection_data w
  = match List.find (has_id user_id) (users (db w)) with
    | None => (Ok None, w)
    | Some _ =>
        match DataCollectionCreate.photo_id collection_data with
        | Some photo_id =>
            match List.find (has_id photo_id) (photos (db w)) with
            | None => (Ok None, w)
            | Some _ => stored
            end
        | None => stored
        end
    end.
Proof.
  intros Hup collection stored. unfold create_collection. cbv zeta.
  destruct (commit_new_refresh
              (DataCollection.Build None
                 (DataCollectionCreate.customer_name collection_data)
                 (DataCollectionCreate.description collection_data)
                 now user_id
                 (DataCollectionCreate.photo_id collection_data)
                 (DataCollectionCreate.location_data collection_data)
                 (DataCollectionCreate.device_info collection_data)
                 false None) w Hup) as (Hrun & _).
  assert ((commit_new
             (DataCollection.Build None
                (DataCollectionCreate.customer_name collection_data)
                (DataCollectionCreate.description collection_data)
                now user_id
                (DataCollectionCreate.photo_id collection_data)
                (DataCollectionCreate.location_data collection_data)
                (DataCollectionCreate.device_info collection_data)
                false None)
           ≫= fun c => refresh c ≫= fun c => ret (Some c)) w = stored) as Hstored.
  { unfold mbind, M_bind, bind in Hrun |- *.
    destruct (commit_new _ w) as [[r|e] w1]; [|discriminate Hrun].
    rewrite Hrun. reflexivity. }
  erewrite bind_ok by (apply session_get_up, Hup).
  change (rows (db w)) with (users (db w)).
  destruct (List.find (has_id user_id) (users (db w))); [|reflexivity].
  destruct (DataCollectionCreate.photo_id collection_data) as [pid|];
    [|exact Hstored].
  erewrite bind_ok by (apply session_get_up, Hup).
  change (rows (db w)) with (photos (db w)).
  destruct (List.find (has_id pid) (photos (db w))); [exact Hstored|reflexivity].
Qed.

Lemma create_collection_down
    (now : datetime) (user_id : Z) (collection_data : DataCollectionCreate.t)
    (w : World) :
  db_up w = false ->
  create_collection now user_id collection_data w
  = (Raise (DatabaseError "database is not available"), w).
Proof.
  intros Hdown. unfold create_collection. cbv zeta.
  now erewrite bind_raise by (apply session_get_down, Hdown).
Qed.

(** ** Invariants of the store *)

Lemma NoDup_snoc {A} (l : list A) (x : A) :
  List.NoDup l -> ~ In x l -> List.NoDup (l ++ [x]).
Proof.
  induction l as [|y l IH]; simpl; intros Hnd Hx.
  - constructor; [intros []|constructor].
  - inversion Hnd as [|? ? Hy Hl]; subst. constructor.
    + rewrite in_app_iff. simpl. intros [H|[H|[]]]; [now apply Hy|]. subst. tauto.
    + apply IH; tauto.
Qed.

Lemma NoDup_map_In_inj {A B} (f : A -> B) (l : list A) (a b : A) :
  List.NoDup (List.map f l) -> In a l -> In b l -> f a = f b -> a = b.
Proof.
  induction l as [|x l IH]; simpl; [tauto|].
  intros Hnd Ha Hb E. inversion Hnd as [|? ? Hx Hl]; subst.
  destruct Ha as [->|Ha], Hb as [->|Hb]; auto.
  - exfalso. apply Hx. rewrite E. now apply in_map.
  - exfalso. apply Hx. rewrite <- E. now apply in_map.
Qed.

Section KeysInvariant.

Context {R : Type} `{TableLaws R}.

(** Appending a row under the next key keeps keys present and distinct. *)
Lemma keys_ok_append (l : list R) (r : R) :
  keys_ok l -> keys_ok (l ++ [with_id (Some (next_id l)) r]).
Proof.
  intros [Hpresent Hnodup]. split.
  - intros x Hx. apply in_app_iff in Hx as [Hx|[<-|[]]]; [now apply Hpresent|].
    rewrite row_id_with_id. discriminate.
  - rewrite List.map_app. cbn [List.map]. rewrite row_id_with_id.
    apply NoDup_snoc; [exact Hnodup|].
    intros Hin. apply in_map_iff in Hin as (x & Hx & Hin).
    apply (next_id_fresh l). now exists x.
Qed.

Lemma resolves_append (i : Z) (l : list R) (r : R) :
  resolves i l -> resolves i (l ++ [r]).
Proof.
  intros (x & Hin & Hx). exists x. split; [|exact Hx].
  apply in_app_iff. now left.
Qed.

(** Rewriting the row of a key by a row of the same key keeps the keys. *)
Lemma rewrite_keeps_keys (k : Z) (l : list R) (r : R) :
  row_id r = Some k ->
  List.map row_id (List.map (fun r0 => if has_id k r0 then r else r0) l)
  = List.map row_id l.
Proof.
  intros Hr. rewrite List.map_map. apply List.map_ext. intros r0.
  destruct (has_id k r0) eqn:E; [|reflexivity].
  apply has_id_true in E. congruence.
Qed.

Lemma keys_ok_rewrite (k : Z) (l : list R) (r : R) :
  row_id r = Some k -> keys_ok l ->
  keys_ok (List.map (fun r0 => if has_id k r0 then r else r0) l).
Proof.
  intros Hr [Hpresent Hnodup]. split.
  - intros x Hx. apply in_map_iff in Hx as (r0 & <- & Hin).
    destruct (has_id k r0); [congruence | now apply Hpresent].
  - now rewrite rewrite_keeps_keys.
Qed.

Lemma resolves_rewrite (i k : Z) (l : list R) (r : R) :
  row_id r = Some k -> resolves i l ->
  resolves i (List.map (fun r0 => if has_id k r0 then r else r0) l).
Proof.
  intros Hr (x & Hin & Hx).
  exists (if has_id k x then r else x). split.
  - apply in_map_iff. now exists x.
  - destruct (has_id k x) eqn:E; [|exact Hx].
    apply has_id_true in E. congruence.
Qed.

End KeysInvariant.

Lemma references_ok_more_users (s : Store) (l : list User.t) :
  (forall i, resolves i (users s) -> resolves i l) ->
  references_ok s -> references_ok (MkStore l (photos s) (data_collections s)).
Proof.
  intros Hmore Href c Hc. destruct (Href c Hc) as [Hu Hp]. split; auto.
Qed.

Lemma references_ok_more_photos (s : Store) (l : list Photo.t) :
  (forall i, resolves i (photos s) -> resolves i l) ->
  references_ok s -> references_ok (MkStore (users s) l (data_collections s)).
Proof.
  intros Hmore Href c Hc. destruct (Href c Hc) as [Hu Hp]. split; auto.
Qed.

Lemma store_ok_keyed (s : Store) : store_ok s -> keyed (users s).
Proof. intros ((Hk & _) & _). exact Hk. Qed.

(** Appending a user whose username is new keeps the store well formed. *)
Lemma store_ok_new_user (s : Store) (u : User.t) :
  store_ok s ->
  (forall x, In x (users s) -> User.username x <> User.username u) ->
  store_ok (MkStore (users s ++ [with_id (Some (next_id (users s))) u])%list
                    (photos s) (data_collections s)).
Proof.
  intros (Hu & Hp & Hc & Hnames & Href) Hfree.
  split; [|split; [|split; [|split]]]; try assumption.
  - apply keys_ok_append, Hu.
  - cbn [users]. rewrite List.map_app. cbn [List.map].
    apply NoDup_snoc; [exact Hnames|].
    intros Hin. apply in_map_iff in Hin as (x & Hx & Hin).
    now apply (Hfree x Hin).
  - apply (references_ok_more_users s); [|exact Href].
    intros i. apply resolves_append.
Qed.

(** Setting [last_login] on a stored user, in its row, keeps the store
    well formed, and the keys and usernames as they are. *)
Lemma store_ok_touch_user (s : Store) (u : User.t) (key : Z) (t : option datetime) :
  store_ok s -> In u (users s) -> User.id u = Some key ->
  let touched :=
    List.map (fun r => if has_id key r then User.set_last_login t u else r)
             (users s) in
  store_ok (MkStore touched (photos s) (data_collections s))
  /\ List.map User.id touched = List.map User.id (users s)
  /\ List.map User.username touched = List.map User.username (users s).
Proof.
  intros (Hu & Hp & Hc & Hnames & Href) Hin Hkey touched.
  set (user := User.set_last_login t u) in *.
  assert (row_id user = Some key) as Hkey' by exact Hkey.
  assert (List.map User.username touched = List.map User.username (users s))
    as Hsame.
  { unfold touched. rewrite List.map_map. apply List.map_ext_in. intros r Hr.
    destruct (has_id key r) eqn:Er; [|reflexivity].
    apply has_id_true in Er.
    assert (r = u) as ->; [|reflexivity].
    apply (NoDup_map_In_inj row_id (users s)); try assumption;
      [exact (proj2 Hu) | rewrite Er; symmetry; exact Hkey]. }
  split; [|split; [|exact Hsame]].
  - split; [|split; [|split; [|split]]]; try assumption.
    + apply (keys_ok_rewrite key (users s) user Hkey' Hu).
    + cbn [users]. now rewrite Hsame.
    + apply (references_ok_more_users s); [|exact Href].
      intros i. now apply resolves_rewrite.
  - apply (rewrite_keeps_keys key (users s) user Hkey').
Qed.

(** X7.  Whatever its outcome (a new user, [None], or an exception because
    the database is down), [create_user] keeps the store well formed:
    every row carries a key, keys are distinct within each table,
    usernames are distinct, and every collection refers to a stored user
    and, if to a photo, to a stored photo. *)
Theorem create_user_keeps_store_ok
    (now : datetime) (rnd : list Byte.byte) (user_create : UserCreate.t)
    (w : World) :
  store_ok (db w) ->
  store_ok (db (snd (create_user now rnd user_create w))).
Proof.
  intros Hok. destruct (db_up w) eqn:Hup;
    [|now rewrite create_user_down by exact Hup].
  rewrite (create_user_run now rnd user_create w Hup). cbv zeta.
  destruct (List.find _ (users (db w))) eqn:E; [exact Hok|].
  cbn [snd db set_db].
  apply (store_ok_new_user (db w)
           (User.Build None (UserCreate.username user_create)
              (hash_password rnd (UserCreate.password user_create))
              (UserCreate.full_name user_create) (UserCreate.email user_create)
              true now None) Hok).
  intros x Hin Hx. pose proof (List.find_none _ _ E x Hin) as F.
  unfold has_username in F. cbn [User.username] in Hx.
  rewrite Hx, String.eqb_refl in F. discriminate.
Qed.

(** X8.  Whatever its outcome, [authenticate_user] keeps the store well
    formed, and changes neither the keys nor the usernames of the users
    table, nor the other two tables. *)
Theorem authenticate_user_keeps_store_ok
    (now : datetime) (login_data : UserLogin.t) (w : World) :
  store_ok (db w) ->
  let s' := db (snd (authenticate_user now login_data w)) in
  store_ok s'
  /\ List.map User.id (users s') = List.map User.id (users (db w))
  /\ List.map User.username (users s') = List.map User.username (users (db w))
  /\ photos s' = photos (db w)
  /\ data_collections s' = data_collections (db w).
Proof.
  intros Hok. cbv zeta.
  destruct (db_up w) eqn:Hup;
    [|rewrite authenticate_user_down by exact Hup; auto].
  rewrite (authenticate_user_run now login_data w Hup (store_ok_keyed _ Hok)).
  destruct (List.find _ (users (db w))) as [u|] eqn:E; [|auto].
  destruct (User.is_active u); [|auto].
  destruct (verify_password _ _) as [[|]|]; auto.
  assert (In u (users (db w))) as Hin by (apply List.find_some in E; tauto).
  destruct (User.id u) as [key|] eqn:Hkey;
    [|exfalso; now apply (store_ok_keyed _ Hok u Hin)].
  destruct (store_ok_touch_user (db w) u key (Some now) Hok Hin Hkey)
    as (Hok' & Hids & Hnames).
  cbv zeta. cbn [default from_option snd db set_db users photos data_collections].
  auto.
Qed.

(** X9.  Whatever its outcome, [create_collection] keeps the store well
    formed: in particular a collection is stored only with a user id, and
    a photo id if any, that resolve. *)
Theorem create_collection_keeps_store_ok
    (now : datetime) (user_id : Z) (collection_data : DataCollectionCreate.t)
    (w : World) :
  store_ok (db w) ->
  store_ok (db (snd (create_collection now user_id collection_data w))).
Proof.
  intros Hok. destruct (db_up w) eqn:Hup;
    [|now rewrite create_collection_down by exact Hup].
  rewrite (create_collection_run now user_id collection_data w Hup). cbv zeta.
  destruct (List.find (has_id user_id) (users (db w))) as [u|] eqn:Eu;
    [|exact Hok].
  assert (resolves user_id (users (db w))) as Hru.
  { apply List.find_some in Eu as [Hin Hid]. apply has_id_true in Hid.
    now exists u. }
  assert ((forall p, DataCollectionCreate.photo_id collection_data = Some p ->
                     resolves p (photos (db w))) ->
          store_ok
            (MkStore (users (db w)) (photos (db w))
               (data_collections (db w) ++
                [DataCollection.Build (Some (next_id (data_collections (db w))))
                   (DataCollectionCreate.customer_name collection_data)
                   (DataCollectionCreate.description collection_data)
                   now user_id
                   (DataCollectionCreate.photo_id collection_data)
                   (DataCollectionCreate.location_data collection_data)
                   (DataCollectionCreate.device_info collection_data)
                   false None])%list)) as Hstored.
  { intros Hrp. destruct Hok as (Hu & Hp & Hc & Hnames & Href).
    split; [|split; [|split; [|split]]]; try assumption.
    - change (keys_ok
                (data_collections (db w) ++
                 [with_id (Some (next_id (data_collections (db w))))
                    (DataCollection.Build None
                       (DataCollectionCreate.customer_name collection_data)
                       (DataCollectionCreate.description collection_data)
                       now user_id
                       (DataCollectionCreate.photo_id collection_data)
                       (DataCollectionCreate.location_data collection_data)
                       (DataCollectionCreate.device_info collection_data)
                       false None)])%list).
      apply keys_ok_append, Hc.
    - intros c Hin. cbn [data_collections users photos] in *.
      apply in_app_iff in Hin as [Hin|[<-|[]]]; [now apply Href|].
      split; [exact Hru | exact Hrp]. }
  destruct (DataCollectionCreate.photo_id collection_data) as [pid|] eqn:Hpid.
  - destruct (List.find (has_id pid) (photos (db w))) as [p|] eqn:Ep; [|exact Hok].
    apply Hstored. intros p' [= <-].
    apply List.find_some in Ep as [Hin Hid]. apply has_id_true in Hid.
    now exists p.
  - apply Hstored. discriminate.
Qed.

(** Whatever the disk and the database do, [save_photo] either leaves the
    tables as they are or appends one photo row under the next key. *)
Lemma save_photo_tables
    (now_name now_row : datetime) (rnd content : list Byte.byte)
    (original_filename mime_type : string) (w : World) :
  let s' := db (snd (save_photo now_name now_row rnd content original_filename
                                mime_type w)) in
  s' = db w
  \/ exists photo : Photo.t,
       s' = MkStore (users (db w))
                    (photos (db w)
                     ++ [with_id (Some (next_id (photos (db w)))) photo])%list
                    (data_collections (db w)).
Proof.
  cbv zeta.
  destruct (is_allowed_file original_filename) eqn:Hallowed;
    [|left; unfold save_photo; rewrite Hallowed; reflexivity].
  destruct (len content >? MAX_FILE_SIZE) eqn:Hsize;
    [left; unfold save_photo; rewrite Hallowed, Hsize; reflexivity|].
  rewrite Z.gtb_ltb in Hsize. apply Z.ltb_ge in Hsize.
  rewrite (save_photo_accepted now_name now_row rnd content original_filename
             mime_type w Hallowed Hsize).
  cbv zeta.
  set (file_path := target_path now_name rnd original_filename).
  set (w0 := set_dirs _ w).
  set (photo := Photo.Build None _ _ _ _ _ _ _).
  unfold try_except.
  destruct (disk w) eqn:Hdisk.
  - erewrite bind_ok by (unfold write_bytes; simpl disk; rewrite Hdisk; reflexivity).
    set (w1 := set_files (insert file_path content) w0).
    destruct (db_up w) eqn:Hup.
    + right. exists photo.
      destruct (commit_new_refresh photo w1 Hup) as (Hins & _).
      unfold mbind, M_bind, bind in Hins |- *.
      destruct (commit_new photo w1) as [[r|e] w2]; [|discriminate Hins].
      rewrite Hins. reflexivity.
    + left. erewrite bind_raise by (apply commit_new_down; exact Hup).
      destruct (save_photo_handler file_path
                  (DatabaseError "database is not available") w1)
        as (w' & Hh & _ & Hd & _).
      cbv beta. rewrite Hh. cbn [snd]. rewrite Hd. reflexivity.
  - left.
    erewrite bind_raise by (unfold write_bytes; simpl disk; rewrite Hdisk; reflexivity).
    destruct (save_photo_handler file_path (OSError "Permission denied") w0)
      as (w' & Hh & _ & Hd & _).
    cbv beta. rewrite Hh. cbn [snd]. rewrite Hd. reflexivity.
  - left.
    erewrite bind_raise by (unfold write_bytes; simpl disk; rewrite Hdisk; reflexivity).
    destruct (save_photo_handler file_path (OSError "No space left on device")
                (set_files (insert file_path (List.firstn n content)) w0))
      as (w' & Hh & _ & Hd & _).
    cbv beta. rewrite Hh. cbn [snd]. rewrite Hd. reflexivity.
Qed.

(** X10.  Whatever the disk and the database do, [save_photo] keeps the
    store well formed. *)
Theorem save_photo_keeps_store_ok
    (now_name now_row : datetime) (rnd content : list Byte.byte)
    (original_filename mime_type : string) (w : World) :
  store_ok (db w) ->
  store_ok (db (snd (save_photo now_name now_row rnd content original_filename
                                mime_type w))).
Proof.
  intros Hok.
  destruct (save_photo_tables now_name now_row rnd content original_filename
              mime_type w) as [->|(photo & ->)]; [exact Hok|].
  destruct Hok as (Hu & Hp & Hc & Hnames & Href).
  split; [|split; [|split; [|split]]]; try assumption.
  - change (keys_ok (photos (db w)
                     ++ [with_id (Some (next_id (photos (db w)))) photo])%list).
    apply keys_ok_append, Hp.
  - apply (references_ok_more_photos (db w)); [|exact Href].
    intros i. apply resolves_append.
Qed.

(** The sample world is well formed. *)
Lemma monday_world_ok : store_ok (db monday_world).
Proof.
  split; [|split; [|split; [|split]]].
  - split; [intros r [<-|[]]; discriminate|].
    repeat constructor. intros [].
  - split; [intros r []|constructor].
  - split; [intros r [<-|[]]; discriminate|].
    repeat constructor. intros [].
  - repeat constructor. intros [].
  - intros c [<-|[]]. split; [|discriminate].
    eexists. split; [left; reflexivity | reflexivity].
Qed.

Lemma create_user_keeps_store_ok_witness :
  store_ok (db (snd (create_user monday_noon [Byte.x2a] fieldworker_signup
                                 monday_world))).
Proof.
  apply (create_user_keeps_store_ok monday_noon [Byte.x2a] fieldworker_signup
           monday_world).
  exact monday_world_ok.
Defined.

Lemma authenticate_user_keeps_store_ok_witness :
  store_ok (db (snd (authenticate_user monday_noon
                       (UserLogin.Build "demo" "demo123") monday_world))).
Proof.
  apply (authenticate_user_keeps_store_ok monday_noon
           (UserLogin.Build "demo" "demo123") monday_world).
  exact monday_world_ok.
Defined.

Lemma create_collection_keeps_store_ok_witness :
  store_ok (db (snd (create_collection monday_noon 1 visit_without_photo
                                       monday_world))).
Proof.
  apply (create_collection_keeps_store_ok monday_noon 1 visit_without_photo
           monday_world).
  exact monday_world_ok.
Defined.

Lemma save_photo_keeps_store_ok_witness :
  store_ok (db (snd (save_photo monday_noon monday_noon [Byte.x2a]
                       [Byte.x01; Byte.x02] "test.JPG" "image/jpeg"
                       monday_world))).
Proof.
  apply (save_photo_keeps_store_ok monday_noon monday_noon [Byte.x2a]
           [Byte.x01; Byte.x02] "test.JPG" "image/jpeg" monday_world).
  exact monday_world_ok.
Defined.

(** ** Signing up, then logging in *)

Lemma find_appended_match {A} (p : A -> bool) (l : list A) (x : A) :
  List.find p l = None -> p x = true -> List.find p (l ++ [x]) = Some x.
Proof.
  intros Hnone Hx. induction l as [|y l IH]; simpl in *.
  - now rewrite Hx.
  - destruct (p y); [discriminate | auto].
Qed.

(** X11.  With the database up, stored users carrying keys and the
    username free: [create_user] followed by [authenticate_user] with the
    same username and password succeeds, and returns the user just
    created, under the same key, with [last_login] set to the instant of
    the login. *)
Theorem create_user_then_authenticate
    (now1 now2 : datetime) (rnd : list Byte.byte) (user_create : UserCreate.t)
    (w : World) :
  db_up w = true -> keyed (users (db w)) ->
  (forall u, In u (users (db w)) ->
             User.username u <> UserCreate.username user_create) ->
  exists (created logged : User.t) (w1 w2 : World),
    create_user now1 rnd user_create w = (Ok (Some created), w1)
    /\ authenticate_user now2
         (UserLogin.Build (UserCreate.username user_create)
                          (UserCreate.password user_create)) w1
       = (Ok (Some logged), w2)
    /\ User.id created = Some (next_id (users (db w)))
    /\ User.last_login created = None
    /\ logged = User.set_last_login (Some now2) created
    /\ User.id logged = User.id created
    /\ users (db w2) = (users (db w) ++ [logged])%list.
Proof.
  intros Hup Hkeyed Hfree.
  pose proof (find_username_free _ _ Hfree) as Hnone.
  pose proof (create_user_run now1 rnd user_create w Hup) as Hcreate.
  cbv zeta in Hcreate. rewrite Hnone in Hcreate.
  set (created :=
         User.Build (Some (next_id (users (db w))))
           (UserCreate.username user_create)
           (hash_password rnd (UserCreate.password user_create))
           (UserCreate.full_name user_create) (UserCreate.email user_create)
           true now1 None) in *.
  set (w1 := set_db _ w) in Hcreate.
  assert (keyed (users (db w1))) as Hkeyed1.
  { intros u Hu. cbn [w1 db set_db users] in Hu.
    apply in_app_iff in Hu as [Hu|[<-|[]]]; [now apply Hkeyed | discriminate]. }
  assert (List.find (has_username (UserCreate.username user_create)) (users (db w1))
          = Some created) as Hfound.
  { cbn [w1 db set_db users]. apply find_appended_match; [exact Hnone|].
    unfold has_username. apply String.eqb_refl. }
  pose proof (authenticate_user_run now2
                (UserLogin.Build (UserCreate.username user_create)
                                 (UserCreate.password user_create))
                w1 Hup Hkeyed1) as Hauth.
  cbn [UserLogin.username UserLogin.password] in Hauth.
  rewrite Hfound in Hauth.
  change (User.is_active created) with true in Hauth.
  change (User.password_hash created)
    with (hash_password rnd (UserCreate.password user_create)) in Hauth.
  rewrite hash_password_verifies in Hauth. cbv zeta in Hauth.
  change (default 0 (User.id created)) with (next_id (users (db w))) in Hauth.
  set (logged := User.set_last_login (Some now2) created) in *.
  eexists created, logged, w1, _. split; [exact Hcreate|].
  split; [exact Hauth|].
  repeat match goal with |- _ /\ _ => split end; try reflexivity.
  cbn [db set_db users w1].
  assert (forall x, In x (users (db w)) ->
                    has_id (next_id (users (db w))) x = false) as Hfresh.
  { intros x Hx. destruct (has_id _ x) eqn:E; [|reflexivity].
    apply has_id_true in E. exfalso.
    apply (next_id_fresh (users (db w))). now exists x. }
  rewrite List.map_app. cbn [List.map].
  replace (has_id (next_id (users (db w))) created) with true
    by (symmetry; apply has_id_true; reflexivity).
  f_equal. rewrite <- (List.map_id (users (db w))) at 2.
  apply List.map_ext_in. intros x Hx. now rewrite (Hfresh x Hx).
Qed.

Lemma create_user_then_authenticate_witness :
  exists (created logged : User.t) (w1 w2 : World),
    create_user monday_noon [Byte.x2a] fieldworker_signup monday_world
    = (Ok (Some created), w1)
    /\ authenticate_user monday_noon (UserLogin.Build "fieldworker" "field123") w1
       = (Ok (Some logged), w2)
    /\ User.id logged = Some 2
    /\ User.last_login logged = Some monday_noon.
Proof.
  destruct (create_user_then_authenticate monday_noon monday_noon [Byte.x2a]
              fieldworker_signup monday_world)
    as (created & logged & w1 & w2 & Hc & Ha & Hid & _ & Hl & Hid' & _).
  - reflexivity.
  - intros u [<-|[]]. discriminate.
  - intros u [<-|[]]. vm_compute. discriminate.
  - exists created, logged, w1, w2. split; [exact Hc|]. split; [exact Ha|].
    split; [rewrite Hid', Hid; reflexivity|]. rewrite Hl. reflexivity.
Defined.

(** ** Listing and statistics after a submission *)

Lemma insert_desc_perm (c : DataCollection.t) (l : list DataCollection.t) :
  Permutation (insert_desc c l) (c :: l).
Proof.
  induction l as [|x l IH]; simpl; [reflexivity|].
  destruct (datetime_geb _ _); [reflexivity|].
  rewrite IH. apply perm_swap.
Qed.

Lemma order_by_desc_perm (l : list DataCollection.t) :
  Permutation (order_by_desc l) l.
Proof.
  induction l as [|x l IH]; simpl; [reflexivity|].
  rewrite insert_desc_perm. now constructor.
Qed.

(** X12.  With the database up and a limit at least the number of the
    user's collections, [get_collections_by_user] returns each of the
    user's collections exactly once: the result is a rearrangement of the
    rows of the collections table that carry the user id. *)
Theorem get_collections_by_user_complete (user_id limit : Z) (w : World) :
  db_up w = true ->
  len (collections_of user_id w) <= limit ->
  exists l : list DataCollection.t,
    get_collections_by_user user_id limit w = (Ok l, w)
    /\ Permutation l (collections_of user_id w).
Proof.
  intros Hup Hlim. eexists. split.
  { unfold get_collections_by_user.
    erewrite bind_ok by (apply statement_up, Hup). reflexivity. }
  fold (collections_of user_id w).
  rewrite sql_limit_nonneg by (unfold len in Hlim; lia).
  rewrite List.firstn_all2; [apply order_by_desc_perm|].
  rewrite order_by_desc_length. unfold len in Hlim. lia.
Qed.

Lemma get_collections_by_user_complete_witness :
  exists l : list DataCollection.t,
    get_collections_by_user 1 100 listing_world = (Ok l, listing_world)
    /\ Permutation l (collections_of 1 listing_world).
Proof.
  apply (get_collections_by_user_complete 1 100 listing_world).
  - reflexivity.
  - vm_compute. discriminate.
Defined.

Lemma collections_of_after_submission
    (uid user_id : Z) (c : DataCollection.t) (w : World) :
  DataCollection.user_id c = user_id ->
  collections_of uid
    (set_db (fun s => MkStore (users s) (photos s)
                              (data_collections s ++ [c])%list) w)
  = if user_id =? uid then (collections_of uid w ++ [c])%list
    else collections_of uid w.
Proof.
  intros Hc. unfold collections_of. cbn [db set_db data_collections].
  rewrite List.filter_app. cbn [List.filter]. rewrite Hc.
  destruct (user_id =? uid); [reflexivity | apply List.app_nil_r].
Qed.

Lemma len_app_one {A} (l : list A) (x : A) : len (l ++ [x]) = len l + 1.
Proof. unfold len. rewrite List.length_app. simpl. lia. Qed.

Lemma count_since_app_one (start : datetime) (l : list DataCollection.t)
    (c : DataCollection.t) :
  count_since start (l ++ [c])
  = count_since start l
    + (if datetime_geb (DataCollection.submission_date c) start then 1 else 0).
Proof.
  unfold count_since. rewrite List.filter_app. cbn [List.filter].
  destruct (datetime_geb _ _); [apply len_app_one|].
  rewrite List.app_nil_r. lia.
Qed.

(** X13.  With the database up, a user id that resolves and a photo id
    that, if given, resolves: after [create_collection] at instant [now],
    the statistics read at any valid instant [t] show, for that user, one
    more collection in total and one more pending, and one more in the
    day and month windows exactly when [now] is at or after the window's
    start; the statistics of every other user are what they were. *)
Theorem create_collection_then_stats
    (now t : datetime) (user_id other : Z)
    (collection_data : DataCollectionCreate.t) (w : World) :
  db_up w = true -> valid_datetime t = true ->
  resolves user_id (users (db w)) ->
  (forall p, DataCollectionCreate.photo_id collection_data = Some p ->
             resolves p (photos (db w))) ->
  other <> user_id ->
  exists (c : DataCollection.t) (w' : World) (before after : DashboardStats.t),
    create_collection now user_id collection_data w = (Ok (Some c), w')
    /\ get_dashboard_stats t user_id w = (Ok before, w)
    /\ get_dashboard_stats t user_id w' = (Ok after, w')
    /\ DashboardStats.total_collections after
       = DashboardStats.total_collections before + 1
    /\ DashboardStats.pending_sync after = DashboardStats.pending_sync before + 1
    /\ DashboardStats.collections_today after
       = DashboardStats.collections_today before
         + (if datetime_geb now (Datetime (year t) (month t) (day t) 0 0 0 0)
            then 1 else 0)
    /\ DashboardStats.collections_this_month after
       = DashboardStats.collections_this_month before
         + (if datetime_geb now (Datetime (year t) (month t) 1 0 0 0 0)
            then 1 else 0)
    /\ fst (get_dashboard_stats t other w') = fst (get_dashboard_stats t other w).
Proof.
  intros Hup Ht Hu Hp Hother.
  pose proof (create_collection_run now user_id collection_data w Hup) as Hrun.
  cbv zeta in Hrun.
  destruct (find_has_id_Some user_id (users (db w)) Hu) as (u & Hfu & _).
  rewrite Hfu in Hrun.
  set (c := DataCollection.Build (Some (next_id (data_collections (db w))))
              (DataCollectionCreate.customer_name collection_data)
              (DataCollectionCreate.description collection_data)
              now user_id
              (DataCollectionCreate.photo_id collection_data)
              (DataCollectionCreate.location_data collection_data)
              (DataCollectionCreate.device_info collection_data)
              false None) in *.
  set (w' := set_db _ w) in Hrun.
  assert (create_collection now user_id collection_data w = (Ok (Some c), w'))
    as Hcreated.
  { rewrite Hrun.
    destruct (DataCollectionCreate.photo_id collection_data) as [pid|] eqn:Hpid;
      [|reflexivity].
    destruct (find_has_id_Some pid (photos (db w)) (Hp pid eq_refl))
      as (p & -> & _).
    reflexivity. }
  assert (db_up w' = true) as Hup' by exact Hup.
  exists c, w'. do 2 eexists.
  split; [exact Hcreated|].
  split; [apply (get_dashboard_stats_computed t user_id w Hup Ht)|].
  split; [apply (get_dashboard_stats_computed t user_id w' Hup' Ht)|].
  rewrite (get_dashboard_stats_computed t other w' Hup' Ht).
  rewrite (get_dashboard_stats_computed t other w Hup Ht).
  cbv zeta. cbn [DashboardStats.total_collections DashboardStats.pending_sync
                 DashboardStats.collections_today
                 DashboardStats.collections_this_month fst].
  unfold w'.
  rewrite !(collections_of_after_submission _ user_id c w eq_refl).
  rewrite Z.eqb_refl.
  replace (user_id =? other) with false by (symmetry; apply Z.eqb_neq; congruence).
  split; [apply len_app_one|].
  split; [rewrite List.filter_app; apply len_app_one|].
  split; [apply count_since_app_one|].
  split; [apply count_since_app_one | reflexivity].
Qed.

Lemma create_collection_then_stats_witness :
  exists (c : DataCollection.t) (w' : World) (before after : DashboardStats.t),
    create_collection monday_noon 1 visit_without_photo monday_world
    = (Ok (Some c), w')
    /\ get_dashboard_stats monday_noon 1 monday_world = (Ok before, monday_world)
    /\ get_dashboard_stats monday_noon 1 w' = (Ok after, w')
    /\ DashboardStats.total_collections after
       = DashboardStats.total_collections before + 1
    /\ DashboardStats.pending_sync after = DashboardStats.pending_sync before + 1.
Proof.
  destruct (create_collection_then_stats monday_noon monday_noon 1 2
              visit_without_photo monday_world)
    as (c & w' & before & after & H1 & H2 & H3 & H4 & H5 & _).
  - reflexivity.
  - reflexivity.
  - eexists. split; [left; reflexivity | reflexivity].
  - intros p Hp. discriminate Hp.
  - discriminate.
  - exists c, w', before, after. auto.
Defined.

(** X14.  With the database up and a valid instant, the statistics of a
    user without any collection are all zero, with no last submission. *)
Theorem get_dashboard_stats_no_collections
    (now : datetime) (user_id : Z) (w : World) :
  db_up w = true -> valid_datetime now = true ->
  (forall c, In c (data_collections (db w)) ->
             DataCollection.user_id c <> user_id) ->
  get_dashboard_stats now user_id w
  = (Ok (DashboardStats.Build 0 0 0 0 0 None), w).
Proof.
  intros Hup V Hnone.
  assert (collections_of user_id w = []) as Hempty.
  { unfold collections_of.
    induction (data_collections (db w)) as [|c l IH]; [reflexivity|].
    simpl. replace (DataCollection.user_id c =? user_id) with false.
    - apply IH. intros x Hx. apply Hnone. now right.
    - symmetry. apply Z.eqb_neq, Hnone. now left. }
  rewrite (get_dashboard_stats_computed now user_id w Hup V). cbv zeta.
  rewrite Hempty. reflexivity.
Qed.

Lemma get_dashboard_stats_no_collections_witness :
  get_dashboard_stats monday_noon 7 monday_world
  = (Ok (DashboardStats.Build 0 0 0 0 0 None), monday_world).
Proof.
  apply (get_dashboard_stats_no_collections monday_noon 7 monday_world).
  - reflexivity.
  - reflexivity.
  - intros c [<-|[]]. discriminate.
Defined.

(** X15.  With the database up and a valid instant, for a user with at
    least one collection the reported last submission is the ISO
    rendering of the submission date of one of the user's collections,
    and no collection of the user was submitted later than that date. *)
Theorem get_dashboard_stats_last_submission
    (now : datetime) (user_id : Z) (w : World) :
  db_up w = true -> valid_datetime now = true ->
  collections_of user_id w <> [] ->
  exists (s : DashboardStats.t) (latest : DataCollection.t),
    get_dashboard_stats now user_id w = (Ok s, w)
    /\ In latest (data_collections (db w))
    /\ DataCollection.user_id latest = user_id
    /\ DashboardStats.last_submission s
       = Some (isoformat (DataCollection.submission_date latest))
    /\ forall c, In c (data_collections (db w)) ->
         DataCollection.user_id c = user_id ->
         datetime_geb (DataCollection.submission_date latest)
                      (DataCollection.submission_date c) = true.
Proof.
  intros Hup V Hsome.
  pose proof (get_dashboard_stats_computed now user_id w Hup V) as Hrun.
  cbv zeta in Hrun.
  destruct (collections_of user_id w) as [|c0 r] eqn:E; [congruence|].
  destruct (max_by_date_spec DataCollection.submission_date r c0) as [Hin Hmax].
  assert (forall x, In x (c0 :: r) <->
                    In x (data_collections (db w))
                    /\ DataCollection.user_id x = user_id) as Hmem.
  { intros x. rewrite <- E. unfold collections_of. rewrite filter_In.
    now rewrite Z.eqb_eq. }
  eexists. exists (max_by_date DataCollection.submission_date c0 r).
  split; [exact Hrun|].
  split; [now apply Hmem|]. split; [now apply Hmem|].
  split; [reflexivity|].
  intros c Hc Hu. apply Hmax, Hmem. auto.
Qed.

Lemma get_dashboard_stats_last_submission_witness :
  exists (s : DashboardStats.t) (latest : DataCollection.t),
    get_dashboard_stats monday_noon 1 monday_world = (Ok s, monday_world)
    /\ DashboardStats.last_submission s
       = Some (isoformat (DataCollection.submission_date latest)).
Proof.
  destruct (get_dashboard_stats_last_submission monday_noon 1 monday_world)
    as (s & latest & Hrun & _ & _ & Hlast & _).
  - reflexivity.
  - reflexivity.
  - vm_compute. discriminate.
  - exists s, latest. auto.
Defined.

(** ** Sessions (SessionManager) *)

(** X16.  [login_user] raises [ValueError] and leaves the storage as it is
    for a user without id.  For a user with an id it marks the session
    authenticated and records the id, username and full name; from then
    on [get_current_user] returns, with the database up, whatever row the
    id resolves to at that time ([None] if none does), without looking at
    the row's [is_active] flag. *)
Theorem login_user_then_get_current_user
    (user : User.t) (storage : SessionStorage.t) :
  (User.id user = None ->
   SessionManager.login_user user storage
   = (Raise (ValueError "User ID cannot be None"), storage))
  /\
  (forall key, User.id user = Some key ->
     exists storage',
       SessionManager.login_user user storage = (Ok tt, storage')
       /\ SessionManager.is_authenticated storage' = true
       /\ SessionStorage.user_id storage' = Some key
       /\ SessionStorage.username storage' = Some (User.username user)
       /\ SessionStorage.full_name storage' = Some (User.full_name user)
       /\ forall w, db_up w = true ->
            SessionManager.get_current_user storage' w
            = (Ok (List.find (has_id key) (users (db w))), w)).
Proof.
  split.
  - intros Hnone. unfold SessionManager.login_user. now rewrite Hnone.
  - intros key Hkey. eexists. split.
    { unfold SessionManager.login_user. rewrite Hkey. reflexivity. }
    repeat match goal with |- _ /\ _ => split end; try reflexivity.
    intros w Hup. unfold SessionManager.get_current_user. cbn.
    unfold get_user_by_id. now rewrite session_get_up.
Qed.

Lemma login_user_then_get_current_user_witness :
  exists storage',
    SessionManager.login_user
      (User.Build (Some 1) "demo" "" "Demo User" None false monday_noon None)
      SessionStorage.empty
    = (Ok tt, storage')
    /\ SessionManager.is_authenticated storage' = true
    /\ exists stored,
         SessionManager.get_current_user storage' monday_world
         = (Ok (Some stored), monday_world)
         /\ User.username stored = "demo".
Proof.
  destruct (login_user_then_get_current_user
              (User.Build (Some 1) "demo" "" "Demo User" None false monday_noon None)
              SessionStorage.empty) as [_ Hsome].
  destruct (Hsome 1 eq_refl) as (storage' & Hlogin & Hauth & _ & _ & _ & Hcurrent).
  exists storage'. split; [exact Hlogin|]. split; [exact Hauth|].
  exists (User.Build (Some 1) "demo" (hash_password [Byte.x00] "demo123")
            "Demo User" None true (Datetime 2023 12 1 8 0 0 0) None).
  split; [|reflexivity].
  rewrite (Hcurrent monday_world eq_refl). reflexivity.
Defined.

(** X17.  After [logout_user] the session is not authenticated, and
    [get_current_user] returns [None]; more generally [get_current_user]
    returns [None] for every session that is not authenticated or holds
    no user id, and in these cases it does not query the database, so it
    does so even when the database is down. *)
Theorem logout_user_clears_session (storage : SessionStorage.t) (w : World) :
  (exists storage',
     SessionManager.logout_user storage = (Ok tt, storage')
     /\ SessionManager.is_authenticated storage' = false
     /\ SessionManager.get_current_user storage' w = (Ok None, w))
  /\ (SessionManager.is_authenticated storage = false ->
      SessionManager.get_current_user storage w = (Ok None, w))
  /\ (SessionStorage.user_id storage = None ->
      SessionManager.get_current_user storage w = (Ok None, w)).
Proof.
  split; [|split].
  - eexists. repeat split.
  - unfold SessionManager.is_authenticated, SessionManager.get_current_user.
    intros ->. reflexivity.
  - unfold SessionManager.get_current_user. intros ->.
    destruct (negb _); reflexivity.
Qed.

Lemma logout_user_clears_session_witness :
  SessionManager.get_current_user
    (snd (SessionManager.logout_user
            (SessionStorage.Build (Some 1) (Some "demo") (Some "Demo User")
                                  (Some true))))
    monday_world_db_down
  = (Ok None, monday_world_db_down).
Proof.
  destruct (logout_user_clears_session
              (SessionStorage.Build (Some 1) (Some "demo") (Some "Demo User")
                                    (Some true))
              monday_world_db_down) as [(storage' & Hout & _ & Hcurrent) _].
  rewrite Hout. exact Hcurrent.
Defined.

(** ** Seeding the demo users *)

Lemma find_username_existsb (name : string) (l : list User.t) :
  List.existsb (String.eqb name) (List.map User.username l)
  = match List.find (has_username name) l with Some _ => true | None => false end.
Proof.
  induction l as [|u l IH]; [reflexivity|].
  simpl. unfold has_username at 1. rewrite (String.eqb_sym name).
  destruct (String.eqb (User.username u) name); [reflexivity | exact IH].
Qed.

(** One turn of the loop: no exception, a well-formed store again, and the
    username added at the end if and only if it was missing. *)
Lemma seed_user_run (d : Draw) (user_data : UserCreate.t) (w : World) :
  db_up w = true -> store_ok (db w) ->
  exists w',
    seed_user d user_data w = (Ok tt, w')
    /\ db_up w' = true /\ store_ok (db w')
    /\ List.map User.username (users (db w'))
       = add_missing [UserCreate.username user_data]
                     (List.map User.username (users (db w)))
    /\ photos (db w') = photos (db w)
    /\ data_collections (db w') = data_collections (db w)
    /\ files w' = files w.
Proof.
  intros Hup Hok. unfold add_missing. cbn [List.fold_left].
  rewrite find_username_existsb.
  set (name := UserCreate.username user_data).
  set (login_data := UserLogin.Build name (UserCreate.password user_data)).
  pose proof (authenticate_user_run (login_at d) login_data w Hup
                (store_ok_keyed _ Hok)) as Hauth.
  pose proof (create_user_run (signup_at d) (salt_bytes d) user_data w Hup)
    as Hcreate.
  cbv zeta in Hcreate.
  cbn [UserLogin.username UserLogin.password login_data] in Hauth.
  fold name in Hcreate.
  unfold seed_user. cbv zeta. fold name. fold login_data.
  assert (forall w0, w0 = w ->
            exists w',
              (user ← create_user (signup_at d) (salt_bytes d) user_data; ret tt) w0
              = (Ok tt, w')
              /\ db_up w' = true /\ store_ok (db w')
              /\ List.map User.username (users (db w'))
                 = (if match List.find (has_username name) (users (db w)) with
                       | Some _ => true
                       | None => false
                       end
                    then List.map User.username (users (db w))
                    else (List.map User.username (users (db w)) ++ [name])%list)
              /\ photos (db w') = photos (db w)
              /\ data_collections (db w') = data_collections (db w)
              /\ files w' = files w) as Hcreated.
  { intros w0 ->.
    destruct (List.find (has_username name) (users (db w))) as [u|] eqn:Ef.
    - exists w. erewrite bind_ok by exact Hcreate.
      repeat match goal with |- _ /\ _ => split end; auto.
    - eexists. erewrite bind_ok by exact Hcreate. split; [reflexivity|].
      repeat match goal with |- _ /\ _ => split end;
        try reflexivity; try exact Hup.
      + cbn [db set_db].
        apply (store_ok_new_user (db w)
                 (User.Build None name
                    (hash_password (salt_bytes d) (UserCreate.password user_data))
                    (UserCreate.full_name user_data) (UserCreate.email user_data)
                    true (signup_at d) None) Hok).
        intros x Hin Hx. pose proof (List.find_none _ _ Ef x Hin) as F.
        unfold has_username in F. cbn [User.username] in Hx.
        rewrite Hx, String.eqb_refl in F. discriminate.
      + cbn [db set_db users]. rewrite List.map_app. reflexivity. }
  destruct (List.find (has_username name) (users (db w))) as [u|] eqn:Ef.
  - destruct (User.is_active u) eqn:Hactive.
    + destruct (verify_password (UserCreate.password user_data)
                                (User.password_hash u)) as [[|]|] eqn:Hv.
      * (* the user logs in: nothing is created *)
        assert (In u (users (db w))) as Hin
            by (apply List.find_some in Ef; tauto).
        destruct (User.id u) as [key|] eqn:Hkey;
          [|exfalso; now apply (store_ok_keyed _ Hok u Hin)].
        destruct (store_ok_touch_user (db w) u key (Some (login_at d))
                    Hok Hin Hkey) as (Hok' & _ & Hnames).
        cbv zeta in Hauth. cbn [default from_option] in Hauth.
        erewrite bind_ok by exact Hauth.
        eexists. split; [reflexivity|].
        repeat match goal with |- _ /\ _ => split end;
          try reflexivity; try exact Hup; try exact Hok'; try exact Hnames.
      * erewrite bind_ok by exact Hauth. now apply Hcreated.
      * erewrite bind_ok by exact Hauth. now apply Hcreated.
    + erewrite bind_ok by exact Hauth. now apply Hcreated.
  - erewrite bind_ok by exact Hauth. now apply Hcreated.
Qed.

Lemma add_missing_cons (n : string) (names present : list string) :
  add_missing (n :: names) present = add_missing names (add_missing [n] present).
Proof. reflexivity. Qed.

Lemma seed_users_run (draws : nat -> Draw) (l : list UserCreate.t) :
  forall (i : nat) (w : World),
    db_up w = true -> store_ok (db w) ->
    exists w',
      seed_users draws i l w = (Ok tt, w')
      /\ db_up w' = true /\ store_ok (db w')
      /\ List.map User.username (users (db w'))
         = add_missing (List.map UserCreate.username l)
                       (List.map User.username (users (db w)))
      /\ photos (db w') = photos (db w)
      /\ data_collections (db w') = data_collections (db w)
      /\ files w' = files w.
Proof.
  induction l as [|user_data l IH]; intros i w Hup Hok.
  - exists w. repeat match goal with |- _ /\ _ => split end; auto.
  - destruct (seed_user_run (draws i) user_data w Hup Hok)
      as (w1 & Hrun1 & Hup1 & Hok1 & Hnames1 & Hp1 & Hc1 & Hf1).
    destruct (IH (S i) w1 Hup1 Hok1)
      as (w2 & Hrun2 & Hup2 & Hok2 & Hnames2 & Hp2 & Hc2 & Hf2).
    exists w2. split.
    { cbn [seed_users]. erewrite bind_ok by exact Hrun1. exact Hrun2. }
    repeat match goal with |- _ /\ _ => split end; try congruence; auto.
    cbn [List.map]. rewrite add_missing_cons, <- Hnames1. exact Hnames2.
Qed.

Lemma add_missing_prefix (names present : list string) :
  exists added, add_missing names present = (present ++ added)%list
                /\ forall n, In n added -> In n names.
Proof.
  revert present. induction names as [|n names IH]; intros present.
  - exists []. split; [symmetry; apply List.app_nil_r | intros ? []].
  - rewrite add_missing_cons. unfold add_missing at 2. cbn [List.fold_left].
    destruct (List.existsb (String.eqb n) present).
    + destruct (IH present) as (added & -> & Hin).
      exists added. split; [reflexivity|]. intros x Hx. right. auto.
    + destruct (IH (present ++ [n])%list) as (added & -> & Hin).
      exists (n :: added). split; [now rewrite <- List.app_assoc|].
      intros x [<-|Hx]; [now left | right; auto].
Qed.

Lemma add_missing_contains (names present : list string) (n : string) :
  In n names \/ In n present -> In n (add_missing names present).
Proof.
  revert present. induction names as [|m names IH]; intros present.
  - intros [[]|H]. exact H.
  - rewrite add_missing_cons. intros H. apply IH.
    unfold add_missing. cbn [List.fold_left].
    destruct (List.existsb (String.eqb m) present) eqn:E.
    + destruct H as [[<-|H]|H]; auto.
      right. apply List.existsb_exists in E as (x & Hx & Ex).
      apply String.eqb_eq in Ex. now subst.
    + destruct H as [[<-|H]|H]; auto.
      * right. apply in_app_iff. right. now left.
      * right. apply in_app_iff. now left.
Qed.

Lemma add_missing_nothing (names present : list string) :
  (forall n, In n names -> In n present) -> add_missing names present = present.
Proof.
  induction names as [|m names IH]; intros Hall; [reflexivity|].
  rewrite add_missing_cons. unfold add_missing at 2. cbn [List.fold_left].
  replace (List.existsb (String.eqb m) present) with true.
  - apply IH. intros n Hn. apply Hall. now right.
  - symmetry. apply List.existsb_exists. exists m.
    split; [apply Hall; now left | apply String.eqb_refl].
Qed.

(** X18.  With the database up and a well-formed store, [create_demo_users]
    raises nothing and leaves a well-formed store in which the usernames
    are those there before, in place, followed by those of [demo],
    [fieldworker], [supervisor] that were missing: every demo username
    is present afterwards, no username is duplicated (whatever the
    password or the active flag of a user already holding a demo
    username), and photos, collections and files are untouched. *)
Theorem create_demo_users_adds_missing (draws : nat -> Draw) (w : World) :
  db_up w = true -> store_ok (db w) ->
  exists (w' : World) (added : list string),
    create_demo_users draws w = (Ok tt, w')
    /\ store_ok (db w')
    /\ List.map User.username (users (db w'))
       = (List.map User.username (users (db w)) ++ added)%list
    /\ (forall n, In n added -> In n ["demo"; "fieldworker"; "supervisor"])
    /\ (forall n, In n ["demo"; "fieldworker"; "supervisor"] ->
                  In n (List.map User.username (users (db w'))))
    /\ List.NoDup (List.map User.username (users (db w')))
    /\ photos (db w') = photos (db w)
    /\ data_collections (db w') = data_collections (db w)
    /\ files w' = files w.
Proof.
  intros Hup Hok.
  destruct (seed_users_run draws demo_users 0%nat w Hup Hok)
    as (w' & Hrun & _ & Hok' & Hnames & Hp & Hc & Hf).
  destruct (add_missing_prefix (List.map UserCreate.username demo_users)
              (List.map User.username (users (db w)))) as (added & Hadd & Hin).
  exists w', added. split; [exact Hrun|]. split; [exact Hok'|].
  split; [now rewrite Hnames, Hadd|]. split; [exact Hin|].
  split.
  { intros n Hn. rewrite Hnames. apply add_missing_contains. now left. }
  split; [apply Hok'|]. auto.
Qed.

Lemma empty_world_ok : store_ok (db empty_world).
Proof.
  unfold store_ok, keys_ok, references_ok. cbn.
  split; [|split; [|split; [|split]]].
  - split; [intros r []|apply List.NoDup_nil].
  - split; [intros r []|apply List.NoDup_nil].
  - split; [intros r []|apply List.NoDup_nil].
  - apply List.NoDup_nil.
  - intros c [].
Qed.

Lemma create_demo_users_adds_missing_witness :
  exists w' : World,
    create_demo_users sample_draws empty_world = (Ok tt, w')
    /\ List.map User.username (users (db w'))
       = ["demo"; "fieldworker"; "supervisor"].
Proof.
  destruct (create_demo_users_adds_missing sample_draws empty_world)
    as (w' & added & Hrun & _ & Hnames & _).
  - reflexivity.
  - exact empty_world_ok.
  - exists w'. split; [exact Hrun|].
    assert (w' = snd (create_demo_users sample_draws empty_world)) as ->
        by now rewrite Hrun.
    vm_compute. reflexivity.
Defined.

(** X19.  Seeding twice is seeding once, as far as the set of users goes:
    with the database up and a well-formed store, a second run of
    [create_demo_users] raises nothing and leaves the usernames, the keys
    and the number of users as the first run left them. *)
Theorem create_demo_users_twice (draws1 draws2 : nat -> Draw) (w : World) :
  db_up w = true -> store_ok (db w) ->
  exists w1 w2 : World,
    create_demo_users draws1 w = (Ok tt, w1)
    /\ create_demo_users draws2 w1 = (Ok tt, w2)
    /\ List.map User.username (users (db w2))
       = List.map User.username (users (db w1))
    /\ List.length (users (db w2)) = List.length (users (db w1)).
Proof.
  intros Hup Hok.
  destruct (seed_users_run draws1 demo_users 0%nat w Hup Hok)
    as (w1 & Hrun1 & Hup1 & Hok1 & Hnames1 & _).
  destruct (seed_users_run draws2 demo_users 0%nat w1 Hup1 Hok1)
    as (w2 & Hrun2 & _ & _ & Hnames2 & _).
  assert (List.map User.username (users (db w2))
          = List.map User.username (users (db w1))) as Hsame.
  { rewrite Hnames2. apply add_missing_nothing.
    intros n Hn. rewrite Hnames1. apply add_missing_contains. now left. }
  exists w1, w2. split; [exact Hrun1|]. split; [exact Hrun2|].
  split; [exact Hsame|].
  apply (f_equal (@List.length string)) in Hsame.
  now rewrite !List.length_map in Hsame.
Qed.

Lemma create_demo_users_twice_witness :
  exists w1 w2 : World,
    create_demo_users sample_draws empty_world = (Ok tt, w1)
    /\ create_demo_users sample_draws w1 = (Ok tt, w2)
    /\ List.length (users (db w2)) = List.length (users (db w1)).
Proof.
  destruct (create_demo_users_twice sample_draws sample_draws empty_world)
    as (w1 & w2 & H1 & H2 & _ & Hlen).
  - reflexivity.
  - exact empty_world_ok.
  - exists w1, w2. auto.
Defined.

(** ** Looking rows up by key *)

Section Lookup.

Context {R : Type} `{TableLaws R}.

(** In a table whose keys are distinct, a key finds exactly its row. *)
Lemma find_has_id_unique (i : Z) (l : list R) (r : R) :
  List.NoDup (List.map row_id l) ->
  (List.find (has_id i) l = Some r <-> In r l /\ row_id r = Some i).
Proof.
  intros Hnd. split.
  - intros E. apply List.find_some in E as [Hin Hr].
    apply has_id_true in Hr. auto.
  - intros [Hin Hr].
    destruct (find_has_id_Some i l) as (x & Hx & Hxin & Hxr); [now exists r|].
    rewrite Hx. f_equal.
    apply (NoDup_map_In_inj row_id l); auto. congruence.
Qed.

End Lookup.

(** X20.  With the database up and a well-formed store, each of
    [get_user_by_id], [get_photo_by_id] and [get_collection_by_id] leaves
    the world as it is and returns a row exactly when that row is stored
    under the given key, and [None] exactly when no row is. *)
Theorem get_by_id_finds_the_row (i : Z) (w : World) :
  db_up w = true -> store_ok (db w) ->
  (exists r, get_user_by_id i w = (Ok r, w)
             /\ (forall u, r = Some u <-> In u (users (db w)) /\ User.id u = Some i)
             /\ (r = None <-> ~ resolves i (users (db w))))
  /\ (exists r, get_photo_by_id i w = (Ok r, w)
                /\ (forall p, r = Some p <->
                              In p (photos (db w)) /\ Photo.id p = Some i)
                /\ (r = None <-> ~ resolves i (photos (db w))))
  /\ (exists r, get_collection_by_id i w = (Ok r, w)
                /\ (forall c, r = Some c <->
                              In c (data_collections (db w))
                              /\ DataCollection.id c = Some i)
                /\ (r = None <-> ~ resolves i (data_collections (db w)))).
Proof.
  intros Hup ((_ & Hu) & (_ & Hp) & (_ & Hc) & _).
  split; [|split].
  - exists (List.find (has_id i) (users (db w))).
    split; [exact (session_get_up (R := User.t) i w Hup)|].
    split; [intros u; exact (find_has_id_unique (R := User.t) i _ u Hu)
           | exact (find_has_id_None (R := User.t) i _)].
  - exists (List.find (has_id i) (photos (db w))).
    split; [exact (session_get_up (R := Photo.t) i w Hup)|].
    split; [intros p; exact (find_has_id_unique (R := Photo.t) i _ p Hp)
           | exact (find_has_id_None (R := Photo.t) i _)].
  - exists (List.find (has_id i) (data_collections (db w))).
    split; [exact (session_get_up (R := DataCollection.t) i w Hup)|].
    split; [intros c; exact (find_has_id_unique (R := DataCollection.t) i _ c Hc)
           | exact (find_has_id_None (R := DataCollection.t) i _)].
Qed.

Lemma get_by_id_finds_the_row_witness :
  get_user_by_id 99999 monday_world = (Ok None, monday_world)
  /\ exists u, get_user_by_id 1 monday_world = (Ok (Some u), monday_world)
               /\ User.username u = "demo".
Proof.
  destruct (get_by_id_finds_the_row 99999 monday_world eq_refl monday_world_ok)
    as ((r & Hrun & _ & Hnone) & _).
  destruct (get_by_id_finds_the_row 1 monday_world eq_refl monday_world_ok)
    as ((r1 & Hrun1 & Hsome & _) & _).
  split.
  - rewrite Hrun. f_equal. f_equal. apply Hnone.
    intros (u & [<-|[]] & Hu). discriminate Hu.
  - exists (User.Build (Some 1) "demo" (hash_password [Byte.x00] "demo123")
              "Demo User" None true (Datetime 2023 12 1 8 0 0 0) None).
    split; [|reflexivity]. rewrite Hrun1. f_equal. f_equal.
    apply Hsome. split; [left; reflexivity | reflexivity].
Defined.

(** ** A corrupt stored hash *)

(** X21.  With the database up and stored users carrying keys: when the
    stored hash of the user found by username does not split into exactly
    two pieces on ['$'], [authenticate_user] returns [None] and leaves the
    world unchanged, whatever the password; it does not raise. *)
Theorem authenticate_user_corrupt_hash
    (now : datetime) (login_data : UserLogin.t) (w : World) (u : User.t) :
  db_up w = true -> keyed (users (db w)) ->
  List.find (has_username (UserLogin.username login_data)) (users (db w))
  = Some u ->
  List.length (Str.split dollar (User.password_hash u)) <> 2%nat ->
  authenticate_user now login_data w = (Ok None, w).
Proof.
  intros Hup Hkeyed Hfound Hbad.
  rewrite (authenticate_user_run now login_data w Hup Hkeyed), Hfound.
  rewrite (verify_password_other_pieces _ _ Hbad).
  destruct (User.is_active u); reflexivity.
Qed.

(** A store whose only user has a hash without separator. *)
Lemma authenticate_user_corrupt_hash_witness :
  authenticate_user monday_noon (UserLogin.Build "demo" "demo123")
    (MkWorld
       (MkStore
          [User.Build (Some 1) "demo" "invalid_hash" "Demo User" None true
                      monday_noon None] [] [])
       true ∅ ∅ DiskOk [])
  = (Ok None,
     MkWorld
       (MkStore
          [User.Build (Some 1) "demo" "invalid_hash" "Demo User" None true
                      monday_noon None] [] [])
       true ∅ ∅ DiskOk []).
Proof.
  eapply (authenticate_user_corrupt_hash monday_noon
            (UserLogin.Build "demo" "demo123")).
  - reflexivity.
  - intros u [<-|[]]. discriminate.
  - reflexivity.
  - vm_compute. discriminate.
Defined.
